(** * update_imports.py: the text splicer of CLACalendar.tsx

    A shallow embedding of [src/update_imports.py].  The script reads one
    file, cuts five spans out of its text with [str.find] and slicing,
    puts a block of import lines in front of what is left of the second
    half and writes the result to a second file.

    Python strings are sequences of Unicode code points; they are lists of
    [N] here.  Indices are [Z], because the script feeds the result of
    [find] (which may be [-1]) back into slices and into the [start]
    argument of [find]. *)

From Stdlib Require Import ZArith Lia List String Ascii.
From stdpp Require Import base option list gmap strings.

Local Open Scope Z_scope.

(** ** Python strings *)

Definition char := N.
Definition str := list char.

(** A literal of the script, as code points. *)
Definition lit (s : string) : str :=
  map N_of_ascii (list_ascii_of_string s).

(** ["\n"] *)
Definition NL : str := [10%N].

Definition len (s : str) : Z := Z.of_nat (length s).

(** [s.startswith(sub)] *)
Fixpoint starts_with (sub s : str) : bool :=
  match sub, s with
  | [], _ => true
  | _ :: _, [] => false
  | a :: sub', b :: s' => (a =? b)%N && starts_with sub' s'
  end.

(** The offset of the first occurrence of [sub] in [s]. *)
Fixpoint find_first (sub s : str) : option nat :=
  if starts_with sub s then Some 0%nat
  else match s with
       | [] => None
       | _ :: s' => S <$> find_first sub s'
       end.

(** How [str.find] reads its [start] argument: a negative one counts from
    the end and stops at 0; one beyond the end is left as it is. *)
Definition adjust_start (start n : Z) : Z :=
  if start <? 0 then Z.max 0 (start + n) else start.

(** [s.find(sub, start)]: the lowest index at or after [start] where [sub]
    occurs in [s], or [-1]. *)
Definition str_find (s sub : str) (start : Z) : Z :=
  let st := adjust_start start (len s) in
  if len s - st <? len sub then -1
  else match find_first sub (drop (Z.to_nat st) s) with
       | Some i => st + Z.of_nat i
       | None => -1
       end.

(** How a slice reads a bound: a negative one counts from the end; the
    result is clipped to [0 .. n]. *)
Definition clamp_index (i n : Z) : Z :=
  if i <? 0 then Z.max 0 (i + n) else Z.min i n.

(** [s[lo:hi]], [None] for an omitted bound. *)
Definition str_slice (s : str) (lo hi : option Z) : str :=
  let a := match lo with Some i => clamp_index i (len s) | None => 0 end in
  let b := match hi with Some i => clamp_index i (len s) | None => len s end in
  take (Z.to_nat (b - a)) (drop (Z.to_nat a) s).

(** [s[:i]] and [s[i:]] *)
Definition slice_to (s : str) (i : Z) : str := str_slice s None (Some i).
Definition slice_from (s : str) (i : Z) : str := str_slice s (Some i) None.

(** ** Exceptions *)

Inductive exn := FileNotFoundError | AttributeError | IndexError.

Inductive result (A : Type) :=
| Ok (a : A)
| Raise (e : exn).
Arguments Ok {A} a.
Arguments Raise {A} e.

Definition bind {A B} (r : result A) (k : A -> result B) : result B :=
  match r with
  | Ok a => k a
  | Raise e => Raise e
  end.

Notation "x <- r ;; k" := (bind r (fun x => k))
  (at level 100, r at next level, right associativity).

(** ** The part of [re] the script uses

    The pattern [(interface InputProps[^}]+})] is a run of literal
    characters and one negated class under a greedy [+], all inside one
    capturing group. *)

Inductive piece :=
| Chr (c : char)          (* the character c *)
| NotChrPlus (c : char).  (* [^c]+ *)

Definition pattern := list piece.

(** [[^c]+] in front of the rest of a pattern, the way a backtracking
    matcher runs it: [+] takes as much as it can and gives characters back
    one at a time when the rest of the pattern fails. *)
Definition plus_not (c : char) (rest : str -> option nat) : str -> option nat :=
  fix more (s : str) : option nat :=
    match s with
    | x :: s' =>
        if (x =? c)%N then None
        else match more s' with
             | Some n => Some (S n)
             | None => S <$> rest s'
             end
    | [] => None
    end.

(** The length of the text the pattern matches at the head of [s]. *)
Fixpoint match_here (p : pattern) (s : str) : option nat :=
  match p with
  | [] => Some 0%nat
  | Chr c :: p' =>
      match s with
      | x :: s' => if (x =? c)%N then S <$> match_here p' s' else None
      | [] => None
      end
  | NotChrPlus c :: p' => plus_not c (match_here p') s
  end.

(** A match object: [m_groups !! k] is what [group(k)] returns.  Group 0 is
    the whole match. *)
Record match_obj := { m_groups : list str }.

(** [re.search] for a pattern that is one capturing group: the leftmost
    position where the pattern matches. *)
Fixpoint re_search (p : pattern) (s : str) : option match_obj :=
  match match_here p s with
  | Some n => Some {| m_groups := [take n s; take n s] |}
  | None => match s with
            | [] => None
            | _ :: s' => re_search p s'
            end
  end.

(** [m.group(k)] *)
Definition group (m : match_obj) (k : nat) : result str :=
  match m_groups m !! k with
  | Some g => Ok g
  | None => Raise IndexError
  end.

(** ** The literals of the script *)

Definition new_imports : str :=
  NL ++
  lit "// Import new extracted components" ++ NL ++
  lit "import { Card } from './CLACalendar/components/Card';" ++ NL ++
  lit "import { DayCell } from './CLACalendar/components/DayCell';" ++ NL ++
  lit "import { MonthGrid } from './CLACalendar/components/MonthGrid';" ++ NL ++
  lit "import { CalendarGrid } from './CLACalendar/components/CalendarGrid';" ++ NL ++
  lit "import { LayerControl } from './CLACalendar/components/LayerControl';" ++ NL ++
  lit "import { getFontSize, isSameMonth } from './CLACalendar/utils/calendar.utils';" ++ NL ++
  lit "import type { CLACalendarProps as ExtractedCLACalendarProps, RenderResult, Renderer } from './CLACalendar/CLACalendar.types';" ++ NL ++
  NL.

Definition FONT_SIZE_COMMENT : str := lit "// Font size utility function".
Definition GET_FONT_SIZE : str := lit "const getFontSize =".
Definition CARD_INTERFACES : str := lit "// Add these interfaces after the existing ones".
Definition CARD_FOOTER : str := lit "Card.Footer = (".
Definition TYPE_DEFINITIONS : str := lit "// Add these type definitions".
Definition INTERFACE_RENDERER : str := lit "interface Renderer".
Definition IS_SAME_MONTH : str :=
  lit "/**" ++ NL ++ lit " * A reliable implementation of isSameMonth".
Definition CACHE_COMMENT : str :=
  lit "// Add this outside the component to cache measurements".
Definition CACHE_CONST : str := lit "const measurementCache = {".
Definition MONTH_GRID : str :=
  lit "// Update the MonthGrid to use proper types for weeks".
Definition CLOSE_SEMI : str := lit "};".
Definition CLOSE : str := lit "}".

(** [r'(interface InputProps[^}]+})'] *)
Definition INPUT_PROPS_RE : pattern :=
  map Chr (lit "interface InputProps") ++ [NotChrPlus 125%N; Chr 125%N].

(** ** The script, lines 13 to 86

    One [let] per assignment, in the order of the source.  The script
    assigns [content_after_imports] six times; each value has its own name
    here, with the line of the assignment.  The record keeps what every
    assignment produced. *)

Record env := {
  import_end : Z;
  import_section : str;
  updated_imports : str;
  measurement_cache_start : Z;
  content_after_imports_41 : str;
  get_font_size_end : Z;
  content_after_imports_43 : str;
  card_props_start : Z;
  card_component_end : Z;
  content_after_imports_49 : str;
  input_props_match : option match_obj;
  input_props : str;
  renderer_start : Z;
  renderer_end : Z;
  content_after_imports_59 : str;
  is_same_month_start : Z;
  is_same_month_end : Z;
  content_after_imports_66 : str;
  measurement_idx : Z;
  month_grid_start : Z;
  content_after_imports_78 : str;
  final_content : str
}.

Definition script (content : str) : result env :=
  let import_end := str_find content FONT_SIZE_COMMENT 0 in
  let import_section := slice_to content import_end in
  let updated_imports := import_section ++ new_imports in
  let measurement_cache_start := str_find content CACHE_COMMENT 0 in
  let measurement_cache_start :=
    if measurement_cache_start =? -1 then str_find content CACHE_CONST 0
    else measurement_cache_start in
  let content_after_imports_41 := slice_from content import_end in
  let get_font_size_end :=
    str_find content_after_imports_41 CLOSE_SEMI
      (str_find content_after_imports_41 GET_FONT_SIZE 0) + 2 in
  let content_after_imports_43 :=
    slice_from content_after_imports_41 get_font_size_end in
  let card_props_start := str_find content_after_imports_43 CARD_INTERFACES 0 in
  let card_component_end :=
    str_find content_after_imports_43 CLOSE_SEMI
      (str_find content_after_imports_43 CARD_FOOTER 0) + 2 in
  let content_after_imports_49 :=
    slice_to content_after_imports_43 card_props_start ++
    slice_from content_after_imports_43 card_component_end in
  let input_props_match := re_search INPUT_PROPS_RE content_after_imports_49 in
  input_props <- match input_props_match with
                 | Some m => group m 1
                 | None => Ok []
                 end ;;
  let renderer_start := str_find content_after_imports_49 TYPE_DEFINITIONS 0 in
  let renderer_end :=
    str_find content_after_imports_49 CLOSE
      (str_find content_after_imports_49 INTERFACE_RENDERER 0) + 1 in
  let content_after_imports_59 :=
    slice_to content_after_imports_49 renderer_start ++
    input_props ++ NL ++ NL ++
    slice_from content_after_imports_49 renderer_end in
  let is_same_month_start := str_find content_after_imports_59 IS_SAME_MONTH 0 in
  let is_same_month_end :=
    str_find content_after_imports_59 CLOSE_SEMI is_same_month_start + 2 in
  let content_after_imports_66 :=
    slice_to content_after_imports_59 is_same_month_start ++
    slice_from content_after_imports_59 is_same_month_end in
  let measurement_idx := str_find content_after_imports_66 CACHE_COMMENT 0 in
  let measurement_idx :=
    if measurement_idx =? -1 then str_find content_after_imports_66 CACHE_CONST 0
    else measurement_idx in
  let month_grid_start := str_find content_after_imports_66 MONTH_GRID 0 in
  let content_after_imports_78 :=
    if negb (month_grid_start =? -1) && negb (measurement_idx =? -1)
    then slice_to content_after_imports_66 month_grid_start ++
         NL ++
         slice_from content_after_imports_66 measurement_idx
    else content_after_imports_66 in
  let final_content := updated_imports ++ content_after_imports_78 in
  Ok {| import_end := import_end;
        import_section := import_section;
        updated_imports := updated_imports;
        measurement_cache_start := measurement_cache_start;
        content_after_imports_41 := content_after_imports_41;
        get_font_size_end := get_font_size_end;
        content_after_imports_43 := content_after_imports_43;
        card_props_start := card_props_start;
        card_component_end := card_component_end;
        content_after_imports_49 := content_after_imports_49;
        input_props_match := input_props_match;
        input_props := input_props;
        renderer_start := renderer_start;
        renderer_end := renderer_end;
        content_after_imports_59 := content_after_imports_59;
        is_same_month_start := is_same_month_start;
        is_same_month_end := is_same_month_end;
        content_after_imports_66 := content_after_imports_66;
        measurement_idx := measurement_idx;
        month_grid_start := month_grid_start;
        content_after_imports_78 := content_after_imports_78;
        final_content := final_content |}.


(** ** The script with its files, lines 9 to 93

    The world the script runs in: the files it can open, by path, and what
    it has printed.  A command leaves a result and the world it reached. *)

Record world := {
  files : gmap string str;
  stdout : list str
}.

Definition io (A : Type) : Type := world -> result A * world.

Definition io_bind {A B} (m : io A) (k : A -> io B) : io B :=
  fun w => match m w with
           | (Ok a, w') => k a w'
           | (Raise e, w') => (Raise e, w')
           end.

Notation "x <~ m ;; k" := (io_bind m (fun x => k))
  (at level 100, m at next level, right associativity).

Definition lift {A} (r : result A) : io A := fun w => (r, w).

(** [with open(path, 'r') as f: f.read()] *)
Definition read_file (path : string) : io str :=
  fun w => match files w !! path with
           | Some data => (Ok data, w)
           | None => (Raise FileNotFoundError, w)
           end.

(** [with open(path, 'w') as f: f.write(data)] *)
Definition write_file (path : string) (data : str) : io unit :=
  fun w => (Ok tt, {| files := <[path := data]> (files w); stdout := stdout w |}).

(** [print(line)] *)
Definition print (line : str) : io unit :=
  fun w => (Ok tt, {| files := files w; stdout := stdout w ++ [line] |}).

Definition INPUT_PATH : string := "src/components/CLACalendar.tsx".
Definition OUTPUT_PATH : string := "src/components/CLACalendar.updated.tsx".
Definition STATUS_WRITTEN : str :=
  lit "Updated file written to src/components/CLACalendar.updated.tsx".
Definition STATUS_REVIEW : str :=
  lit "Please review the changes before replacing the original file".

Definition main : io unit :=
  content <~ read_file INPUT_PATH ;;
  e <~ lift (script content) ;;
  _ <~ write_file OUTPUT_PATH (final_content e) ;;
  _ <~ print STATUS_WRITTEN ;;
  print STATUS_REVIEW.

(** ** The script without lines 36 to 38

    The same assignments as [script], in the same order, except the first
    lookup of the measurement cache; it returns the text the script would
    write. *)

Definition script_without_lines_36_38 (content : str) : result str :=
  let import_end := str_find content FONT_SIZE_COMMENT 0 in
  let import_section := slice_to content import_end in
  let updated_imports := import_section ++ new_imports in
  let content_after_imports_41 := slice_from content import_end in
  let get_font_size_end :=
    str_find content_after_imports_41 CLOSE_SEMI
      (str_find content_after_imports_41 GET_FONT_SIZE 0) + 2 in
  let content_after_imports_43 :=
    slice_from content_after_imports_41 get_font_size_end in
  let card_props_start := str_find content_after_imports_43 CARD_INTERFACES 0 in
  let card_component_end :=
    str_find content_after_imports_43 CLOSE_SEMI
      (str_find content_after_imports_43 CARD_FOOTER 0) + 2 in
  let content_after_imports_49 :=
    slice_to content_after_imports_43 card_props_start ++
    slice_from content_after_imports_43 card_component_end in
  let input_props_match := re_search INPUT_PROPS_RE content_after_imports_49 in
  input_props <- match input_props_match with
                 | Some m => group m 1
                 | None => Ok []
                 end ;;
  let renderer_start := str_find content_after_imports_49 TYPE_DEFINITIONS 0 in
  let renderer_end :=
    str_find content_after_imports_49 CLOSE
      (str_find content_after_imports_49 INTERFACE_RENDERER 0) + 1 in
  let content_after_imports_59 :=
    slice_to content_after_imports_49 renderer_start ++
    input_props ++ NL ++ NL ++
    slice_from content_after_imports_49 renderer_end in
  let is_same_month_start := str_find content_after_imports_59 IS_SAME_MONTH 0 in
  let is_same_month_end :=
    str_find content_after_imports_59 CLOSE_SEMI is_same_month_start + 2 in
  let content_after_imports_66 :=
    slice_to content_after_imports_59 is_same_month_start ++
    slice_from content_after_imports_59 is_same_month_end in
  let measurement_idx := str_find content_after_imports_66 CACHE_COMMENT 0 in
  let measurement_idx :=
    if measurement_idx =? -1 then str_find content_after_imports_66 CACHE_CONST 0
    else measurement_idx in
  let month_grid_start := str_find content_after_imports_66 MONTH_GRID 0 in
  let content_after_imports_78 :=
    if negb (month_grid_start =? -1) && negb (measurement_idx =? -1)
    then slice_to content_after_imports_66 month_grid_start ++
         NL ++
         slice_from content_after_imports_66 measurement_idx
    else content_after_imports_66 in
  let final_content := updated_imports ++ content_after_imports_78 in
  Ok final_content.

Definition main_without_lines_36_38 : io unit :=
  content <~ read_file INPUT_PATH ;;
  final_content <~ lift (script_without_lines_36_38 content) ;;
  _ <~ write_file OUTPUT_PATH final_content ;;
  _ <~ print STATUS_WRITTEN ;;
  print STATUS_REVIEW.

(** ** Words of the specification *)

(** [sub] occurs in [s] at offset [i]. *)
Definition occurs_at (sub s : str) (i : nat) : Prop :=
  exists post, drop i s = sub ++ post.

(** [sub in s] *)
Definition occurs (sub s : str) : Prop :=
  exists pre post, s = pre ++ sub ++ post.

(** A lookup that did not return the sentinel. *)
Definition found (i : Z) : bool := negb (i =? -1).

(** A well-formed input, read off a run: every marker the script looks up
    is found in the buffer it is looked up in, and the spans they delimit
    come one after the other, in the order the script removes them. *)
Definition well_formed (e : env) : bool :=
  let c41 := content_after_imports_41 e in
  let c43 := content_after_imports_43 e in
  let c49 := content_after_imports_49 e in
  let c59 := content_after_imports_59 e in
  found (import_end e) &&
  found (str_find c41 GET_FONT_SIZE 0) &&
  found (str_find c41 CLOSE_SEMI (str_find c41 GET_FONT_SIZE 0)) &&
  found (card_props_start e) &&
  found (str_find c43 CARD_FOOTER 0) &&
  found (str_find c43 CLOSE_SEMI (str_find c43 CARD_FOOTER 0)) &&
  (card_props_start e <=? card_component_end e) &&
  found (renderer_start e) &&
  found (str_find c49 INTERFACE_RENDERER 0) &&
  found (str_find c49 CLOSE (str_find c49 INTERFACE_RENDERER 0)) &&
  (card_props_start e <=? renderer_start e) &&
  (renderer_start e <=? renderer_end e) &&
  found (is_same_month_start e) &&
  found (str_find c59 CLOSE_SEMI (is_same_month_start e)) &&
  (renderer_start e + len (input_props e) + 2 <=? is_same_month_start e) &&
  found (month_grid_start e) &&
  found (measurement_idx e) &&
  (is_same_month_start e <=? month_grid_start e) &&
  (month_grid_start e <=? measurement_idx e).

(** The same, of an input. *)
Definition well_formed_run (c : str) : bool :=
  match script c with
  | Ok e => well_formed e
  | Raise _ => false
  end.

(** The spans of the input that a well-formed run removes, as offsets into
    the input: from the split marker to the end of [getFontSize], the Card
    block, the type definitions, [isSameMonth], and from the MonthGrid
    marker to the measurement cache.  Each lookup is made in a buffer that
    has lost earlier spans and gained the inserted text, so its index is
    moved back by what was cut and put in before it. *)
Definition removed_spans (e : env) : list (Z * Z) :=
  let p0 := import_end e in
  let p1 := p0 + get_font_size_end e in
  let p2 := p1 + card_props_start e in
  let p3 := p1 + card_component_end e in
  let p4 := p3 + (renderer_start e - card_props_start e) in
  let p5 := p3 + (renderer_end e - card_props_start e) in
  let shift := renderer_start e + len (input_props e) + 2 in
  let p6 := p5 + (is_same_month_start e - shift) in
  let p7 := p5 + (is_same_month_end e - shift) in
  let p8 := p7 + (month_grid_start e - is_same_month_start e) in
  let p9 := p7 + (measurement_idx e - is_same_month_start e) in
  [(p0, p1); (p2, p3); (p4, p5); (p6, p7); (p8, p9)].

(** The pieces of [c] outside the spans, from offset [pos] on, in order. *)
Fixpoint outside (c : str) (pos : Z) (spans : list (Z * Z)) : list str :=
  match spans with
  | [] => [slice_from c pos]
  | (a, b) :: spans' => str_slice c (Some pos) (Some a) :: outside c b spans'
  end.

(** Spans that lie in [c] from [pos] on, one after the other. *)
Fixpoint in_order (c : str) (pos : Z) (spans : list (Z * Z)) : Prop :=
  match spans with
  | [] => pos <= len c
  | (a, b) :: spans' => pos <= a /\ a <= b /\ in_order c b spans'
  end.

(** The spans themselves. *)
Definition inside (c : str) (spans : list (Z * Z)) : list str :=
  map (fun ab => str_slice c (Some ab.1) (Some ab.2)) spans.

(** Kept and removed pieces put back together, a kept piece first. *)
Fixpoint weave (kept removed : list str) : str :=
  match kept, removed with
  | [], _ => []
  | k :: _, [] => k
  | k :: kept', r :: removed' => k ++ r ++ weave kept' removed'
  end.

(** ** Sample inputs *)

(** A small file with every marker, in the order of the real one. *)
Definition sample : str :=
  lit "import React;" ++ NL ++
  FONT_SIZE_COMMENT ++ NL ++
  lit "const getFontSize = (s) => { return 1 };" ++ NL ++
  lit "keep A" ++ NL ++
  CARD_INTERFACES ++ NL ++
  lit "Card.Footer = () => { return 2 };" ++ NL ++
  lit "keep B" ++ NL ++
  TYPE_DEFINITIONS ++ NL ++
  lit "interface InputProps { v: string }" ++ NL ++
  lit "interface Renderer { r: number }" ++ NL ++
  lit "keep C" ++ NL ++
  IS_SAME_MONTH ++ NL ++
  lit "const isSameMonth = () => { return 3 };" ++ NL ++
  lit "keep D" ++ NL ++
  MONTH_GRID ++ NL ++
  lit "const MonthGrid = 0;" ++ NL ++
  CACHE_COMMENT ++ NL ++
  CACHE_CONST ++ lit " };" ++ NL.

(** The same without the [InputProps] interface. *)
Definition sample_without_input_props : str :=
  lit "import React;" ++ NL ++
  FONT_SIZE_COMMENT ++ NL ++
  lit "const getFontSize = (s) => { return 1 };" ++ NL ++
  lit "keep A" ++ NL ++
  CARD_INTERFACES ++ NL ++
  lit "Card.Footer = () => { return 2 };" ++ NL ++
  lit "keep B" ++ NL ++
  TYPE_DEFINITIONS ++ NL ++
  lit "interface Renderer { r: number }" ++ NL ++
  lit "keep C" ++ NL ++
  IS_SAME_MONTH ++ NL ++
  lit "const isSameMonth = () => { return 3 };" ++ NL ++
  lit "keep D" ++ NL ++
  MONTH_GRID ++ NL ++
  lit "const MonthGrid = 0;" ++ NL ++
  CACHE_COMMENT ++ NL ++
  CACHE_CONST ++ lit " };" ++ NL.

(** A file without [const getFontSize =]. *)
Definition sample_without_get_font_size : str :=
  FONT_SIZE_COMMENT ++ NL ++ lit "const size = { n: 1 };" ++ NL.

(** A file with every marker, the MonthGrid comment ahead of the type
    definitions. *)
Definition sample_month_grid_first : str :=
  FONT_SIZE_COMMENT ++ NL ++
  lit "const getFontSize = 1 };" ++ NL ++
  CARD_INTERFACES ++ NL ++
  lit "Card.Footer = ( };" ++ NL ++
  MONTH_GRID ++ NL ++
  TYPE_DEFINITIONS ++ NL ++
  lit "interface InputProps { v }" ++ NL ++
  lit "interface Renderer { r }" ++ NL ++
  IS_SAME_MONTH ++ NL ++
  lit "x };" ++ NL ++
  CACHE_CONST.

(** Two worlds that hold [sample] as the input file and differ in
    everything else. *)
Definition sample_world : world :=
  {| files := {[ INPUT_PATH := sample ]}; stdout := [] |}.
Definition sample_world' : world :=
  {| files := {[ INPUT_PATH := sample; OUTPUT_PATH := lit "old";
                 "README.md"%string := lit "notes" ]};
     stdout := [lit "earlier output"] |}.

(** A file with none of the markers. *)
Definition sample_no_markers : str := lit "export const x = { n: 1 }".


(** A world without the input file. *)
Definition world_without_input : world :=
  {| files := {[ "README.md"%string := lit "notes" ]}; stdout := [] |}.

(** [x not in s] *)
Definition no_char (x : char) (s : str) : bool :=
  forallb (fun y => negb (y =? x)%N) s.

(** A file with every marker once, in the order of the real one, whose
    [InputProps] interface stands behind the [Renderer] interface and is
    not closed ahead of the [isSameMonth] comment. *)
Definition sample_fragment_holds_marker : str :=
  lit "import React;" ++ NL ++
  FONT_SIZE_COMMENT ++ NL ++
  lit "const getFontSize = (s) => { return 1 };" ++ NL ++
  lit "keep A" ++ NL ++
  CARD_INTERFACES ++ NL ++
  lit "Card.Footer = () => { return 2 };" ++ NL ++
  lit "keep B" ++ NL ++
  TYPE_DEFINITIONS ++ NL ++
  lit "interface Renderer { r: number }" ++ NL ++
  lit "keep C" ++ NL ++
  lit "interface InputProps" ++ NL ++
  IS_SAME_MONTH ++ NL ++
  lit "const isSameMonth = () => { return 3 };" ++ NL ++
  lit "keep D" ++ NL ++
  MONTH_GRID ++ NL ++
  lit "const MonthGrid = 0;" ++ NL ++
  CACHE_COMMENT ++ NL ++
  CACHE_CONST ++ lit " };" ++ NL.

(** A file with every marker once, in order, and no [interface InputProps]
    in it: the Card block stands between [interface Input] and
    [Props { v: string }]. *)
Definition sample_junction : str :=
  lit "import React;" ++ NL ++
  FONT_SIZE_COMMENT ++ NL ++
  lit "const getFontSize = (s) => { return 1 };" ++ NL ++
  lit "interface Input" ++
  CARD_INTERFACES ++ NL ++
  lit "Card.Footer = () => { return 2 };" ++
  lit "Props { v: string }" ++ NL ++
  lit "keep B" ++ NL ++
  TYPE_DEFINITIONS ++ NL ++
  lit "interface Renderer { r: number }" ++ NL ++
  lit "keep C" ++ NL ++
  IS_SAME_MONTH ++ NL ++
  lit "const isSameMonth = () => { return 3 };" ++ NL ++
  lit "keep D" ++ NL ++
  MONTH_GRID ++ NL ++
  lit "const MonthGrid = 0;" ++ NL ++
  CACHE_COMMENT ++ NL ++
  CACHE_CONST ++ lit " };" ++ NL.

(** The markers of the script, in the order the script expects them in
    the file. *)
Definition MARKERS : list str :=
  [FONT_SIZE_COMMENT; GET_FONT_SIZE; CARD_INTERFACES; CARD_FOOTER;
   TYPE_DEFINITIONS; INTERFACE_RENDERER; IS_SAME_MONTH; MONTH_GRID;
   CACHE_COMMENT; CACHE_CONST].

(** Where [m] occurs in [c], when it occurs there once. *)
Definition once_at (c m : str) : option Z :=
  let i := str_find c m 0 in
  if found i && negb (found (str_find c m (i + 1))) then Some i else None.

Fixpoint increasing (l : list Z) : bool :=
  match l with
  | a :: (b :: _) as l' => (a <? b) && increasing l'
  | _ => true
  end.

(** Every marker occurs in the input once, and they come in the expected
    order. *)
Definition markers_once_in_order (c : str) : bool :=
  match mapM (once_at c) MARKERS with
  | Some positions => increasing positions
  | None => false
  end.

(** * Properties *)

(** ** Slices *)

Lemma slice_to_nonneg (s : str) (i : Z) :
  0 <= i -> slice_to s i = take (Z.to_nat i) s.
Proof.
  intros Hi. unfold slice_to, str_slice, clamp_index, len.
  destruct (Z.ltb_spec i 0); [lia|]. rewrite drop_0.
  destruct (Z.le_gt_cases i (Z.of_nat (length s))).
  - f_equal. lia.
  - rewrite !take_ge by lia. reflexivity.
Qed.

Lemma slice_from_nonneg (s : str) (i : Z) :
  0 <= i -> slice_from s i = drop (Z.to_nat i) s.
Proof.
  intros Hi. unfold slice_from, str_slice, clamp_index, len.
  destruct (Z.ltb_spec i 0); [lia|].
  rewrite take_ge by (rewrite length_drop; lia).
  destruct (Z.le_gt_cases i (Z.of_nat (length s))).
  - f_equal. lia.
  - rewrite !drop_ge by lia. reflexivity.
Qed.

Lemma slice_to_neg (s : str) (i : Z) :
  i < 0 -> slice_to s i = take (Z.to_nat (len s + i)) s.
Proof.
  intros Hi. unfold slice_to, str_slice, clamp_index, len.
  destruct (Z.ltb_spec i 0); [|lia]. rewrite drop_0. f_equal. lia.
Qed.

Lemma slice_from_neg (s : str) (i : Z) :
  i < 0 -> slice_from s i = drop (Z.to_nat (len s + i)) s.
Proof.
  intros Hi. unfold slice_from, str_slice, clamp_index, len.
  destruct (Z.ltb_spec i 0); [|lia].
  rewrite take_ge by (rewrite length_drop; lia). f_equal. lia.
Qed.

(** A slice is a piece of the string it is taken from. *)
Lemma str_slice_piece (s : str) (lo hi : option Z) :
  exists pre post, s = pre ++ str_slice s lo hi ++ post.
Proof.
  unfold str_slice.
  set (n := Z.to_nat _). set (a := Z.to_nat _).
  exists (take a s), (drop n (drop a s)).
  rewrite (take_drop n (drop a s)), take_drop. reflexivity.
Qed.

(** ** Occurrences *)

Lemma starts_with_spec (sub s : str) :
  starts_with sub s = true <-> exists post, s = sub ++ post.
Proof.
  revert s. induction sub as [|a sub IH]; intros s; simpl.
  - split; eauto.
  - destruct s as [|b s].
    + split; [discriminate|]. intros [post H]. discriminate.
    + rewrite andb_true_iff, N.eqb_eq, IH. split.
      * intros [-> [post ->]]. eauto.
      * intros [post H]. injection H as -> ->. eauto.
Qed.

Lemma occurs_at_0 (sub s : str) :
  occurs_at sub s 0 <-> starts_with sub s = true.
Proof. unfold occurs_at. rewrite drop_0. symmetry. apply starts_with_spec. Qed.

Lemma occurs_at_S (sub : str) (x : char) (s : str) (i : nat) :
  occurs_at sub (x :: s) (S i) <-> occurs_at sub s i.
Proof. reflexivity. Qed.

Lemma occurs_at_occurs (sub s : str) (i : nat) :
  occurs_at sub s i -> occurs sub s.
Proof.
  intros [post H]. exists (take i s), post.
  rewrite <- H, take_drop. reflexivity.
Qed.

Lemma occurs_occurs_at (sub s : str) :
  occurs sub s -> exists i, occurs_at sub s i.
Proof.
  intros (pre & post & ->). exists (length pre), post.
  rewrite drop_app_length. reflexivity.
Qed.

Lemma occurs_at_length (sub s : str) (i : nat) :
  occurs_at sub s i -> (i + length sub <= length s \/ sub = [])%nat.
Proof.
  intros [post H]. apply (f_equal length) in H.
  rewrite length_drop, length_app in H.
  destruct sub; [right; reflexivity | left; simpl in *; lia].
Qed.

(** [find_first] returns the first offset where [sub] occurs. *)
Lemma find_first_Some (sub s : str) (i : nat) :
  find_first sub s = Some i ->
  occurs_at sub s i /\ forall j, (j < i)%nat -> ~ occurs_at sub s j.
Proof.
  revert i. induction s as [|x s IH]; intros i; simpl.
  - destruct (starts_with sub []) eqn:E; [|discriminate].
    intros [= <-]. split; [by apply occurs_at_0 | lia].
  - destruct (starts_with sub (x :: s)) eqn:E.
    + intros [= <-]. split; [by apply occurs_at_0 | lia].
    + destruct (find_first sub s) as [k|]; [|discriminate].
      intros [= <-]. destruct (IH k eq_refl) as [H1 H2]. split.
      * by apply occurs_at_S.
      * intros [|j] Hj.
        -- rewrite occurs_at_0, E. discriminate.
        -- rewrite occurs_at_S. apply H2. lia.
Qed.

Lemma find_first_None (sub s : str) :
  find_first sub s = None -> forall j, ~ occurs_at sub s j.
Proof.
  induction s as [|x s IH]; simpl.
  - destruct (starts_with sub []) eqn:E; [discriminate|].
    intros _ j [post H]. rewrite drop_nil in H.
    assert (starts_with sub [] = true) by (apply starts_with_spec; eauto).
    congruence.
  - destruct (starts_with sub (x :: s)) eqn:E; [discriminate|].
    destruct (find_first sub s) as [k|]; [discriminate|].
    intros _ [|j].
    + rewrite occurs_at_0, E. discriminate.
    + rewrite occurs_at_S. by apply IH.
Qed.

(** ** [str.find] *)

Lemma adjust_start_nonneg (start n : Z) : 0 <= adjust_start start n.
Proof. unfold adjust_start. destruct (Z.ltb_spec start 0); lia. Qed.

Lemma occurs_at_drop (sub s : str) (a k : nat) :
  occurs_at sub (drop a s) k <-> occurs_at sub s (a + k).
Proof. unfold occurs_at. rewrite drop_drop. reflexivity. Qed.

(** Every [find] returns [-1] at worst. *)
Lemma str_find_ge_m1 (s sub : str) (start : Z) : -1 <= str_find s sub start.
Proof.
  unfold str_find. pose proof (adjust_start_nonneg start (len s)).
  destruct (_ <? _); [lia|]. destruct (find_first _ _); lia.
Qed.

(** What a successful [find] says: the index is at or after the start, the
    needle fits and sits there, and it sits nowhere between the start and
    the index. *)
Lemma str_find_found (s sub : str) (start i : Z) :
  str_find s sub start = i -> 0 <= i ->
  adjust_start start (len s) <= i /\
  i + len sub <= len s /\
  occurs_at sub s (Z.to_nat i) /\
  forall j, adjust_start start (len s) <= j < i -> ~ occurs_at sub s (Z.to_nat j).
Proof.
  unfold str_find. pose proof (adjust_start_nonneg start (len s)) as Hst.
  set (st := adjust_start start (len s)) in *.
  destruct (Z.ltb_spec (len s - st) (len sub)) as [|Hfit]; [lia|].
  destruct (find_first sub (drop (Z.to_nat st) s)) as [k|] eqn:E; [|lia].
  intros <- _. apply find_first_Some in E as [Hk Hmin].
  apply occurs_at_drop in Hk.
  replace (Z.to_nat (st + Z.of_nat k)) with (Z.to_nat st + k)%nat by lia.
  split; [lia|]. split; [|split; [exact Hk|]].
  - destruct (occurs_at_length _ _ _ Hk) as [Hl | ->].
    + unfold len. lia.
    + destruct k as [|k].
      * unfold len in *. simpl in *. lia.
      * exfalso. apply (Hmin 0%nat); [lia|].
        exists (drop (Z.to_nat st) s). rewrite drop_0. reflexivity.
  - intros j Hj Hocc.
    apply (Hmin (Z.to_nat j - Z.to_nat st)%nat); [lia|].
    apply occurs_at_drop.
    replace (Z.to_nat st + (Z.to_nat j - Z.to_nat st))%nat with (Z.to_nat j) by lia.
    exact Hocc.
Qed.

(** A needle that occurs nowhere is not found, whatever the start. *)
Lemma str_find_absent (s sub : str) (start : Z) :
  ~ occurs sub s -> str_find s sub start = -1.
Proof.
  intros Hno. unfold str_find.
  destruct (_ <? _); [done|].
  destruct (find_first _ _) as [k|] eqn:E; [|done].
  apply find_first_Some in E as [Hk _]. apply occurs_at_drop in Hk.
  exfalso. apply Hno. by eapply occurs_at_occurs.
Qed.

(** A needle that occurs is found from the start of the string. *)
Lemma str_find_present (s sub : str) :
  occurs sub s -> 0 <= str_find s sub 0.
Proof.
  intros Hocc. unfold str_find. change (adjust_start 0 (len s)) with 0.
  apply occurs_occurs_at in Hocc as [i Hi].
  destruct (Z.ltb_spec (len s - 0) (len sub)) as [Hlt|].
  - destruct (occurs_at_length _ _ _ Hi) as [Hl | ->]; unfold len in *; simpl in *; lia.
  - simpl. rewrite drop_0.
    destruct (find_first sub s) as [k|] eqn:E; [lia|].
    exfalso. by eapply find_first_None.
Qed.

(** A needle longer than what is left after the start is not found.  With
    [start = -1] one character is left. *)
Lemma str_find_last_char (s sub : str) :
  2 <= len sub -> str_find s sub (-1) = -1.
Proof.
  intros Hsub. unfold str_find, adjust_start. simpl.
  destruct (Z.ltb_spec (len s - Z.max 0 (-1 + len s)) (len sub)); [done|].
  unfold len in *. lia.
Qed.

(** ** The equations of a run *)

Lemma re_search_groups (p : pattern) (s : str) (m : match_obj) :
  re_search p s = Some m -> exists g, m_groups m = [g; g].
Proof.
  induction s as [|x s IH]; simpl; destruct (match_here p _);
    intros H; try discriminate; try (injection H as <-); eauto.
Qed.

(** Line 54 raises nothing: [group(1)] is asked of a match only, and a
    match of the pattern has a group 1. *)
Lemma input_props_total (s : str) :
  exists ip,
    match re_search INPUT_PROPS_RE s with
    | Some m => group m 1
    | None => Ok []
    end = Ok ip.
Proof.
  destruct (re_search _ _) as [m|] eqn:E; [|eauto].
  apply re_search_groups in E as [g Hg]. unfold group. rewrite Hg. simpl. eauto.
Qed.

(** What each assignment of the script stored, in terms of what the
    assignments before it stored. *)
Record script_eqs (c : str) (e : env) : Prop := {
  eq_import_end : import_end e = str_find c FONT_SIZE_COMMENT 0;
  eq_import_section : import_section e = slice_to c (import_end e);
  eq_updated_imports : updated_imports e = import_section e ++ new_imports;
  eq_measurement_cache_start : measurement_cache_start e =
    (if str_find c CACHE_COMMENT 0 =? -1
     then str_find c CACHE_CONST 0
     else str_find c CACHE_COMMENT 0);
  eq_41 : content_after_imports_41 e = slice_from c (import_end e);
  eq_get_font_size_end : get_font_size_end e =
    str_find (content_after_imports_41 e) CLOSE_SEMI
      (str_find (content_after_imports_41 e) GET_FONT_SIZE 0) + 2;
  eq_43 : content_after_imports_43 e =
    slice_from (content_after_imports_41 e) (get_font_size_end e);
  eq_card_props_start : card_props_start e =
    str_find (content_after_imports_43 e) CARD_INTERFACES 0;
  eq_card_component_end : card_component_end e =
    str_find (content_after_imports_43 e) CLOSE_SEMI
      (str_find (content_after_imports_43 e) CARD_FOOTER 0) + 2;
  eq_49 : content_after_imports_49 e =
    slice_to (content_after_imports_43 e) (card_props_start e) ++
    slice_from (content_after_imports_43 e) (card_component_end e);
  eq_input_props_match : input_props_match e =
    re_search INPUT_PROPS_RE (content_after_imports_49 e);
  eq_input_props :
    match input_props_match e with
    | Some m => group m 1
    | None => Ok []
    end = Ok (input_props e);
  eq_renderer_start : renderer_start e =
    str_find (content_after_imports_49 e) TYPE_DEFINITIONS 0;
  eq_renderer_end : renderer_end e =
    str_find (content_after_imports_49 e) CLOSE
      (str_find (content_after_imports_49 e) INTERFACE_RENDERER 0) + 1;
  eq_59 : content_after_imports_59 e =
    slice_to (content_after_imports_49 e) (renderer_start e) ++
    input_props e ++ NL ++ NL ++
    slice_from (content_after_imports_49 e) (renderer_end e);
  eq_is_same_month_start : is_same_month_start e =
    str_find (content_after_imports_59 e) IS_SAME_MONTH 0;
  eq_is_same_month_end : is_same_month_end e =
    str_find (content_after_imports_59 e) CLOSE_SEMI (is_same_month_start e) + 2;
  eq_66 : content_after_imports_66 e =
    slice_to (content_after_imports_59 e) (is_same_month_start e) ++
    slice_from (content_after_imports_59 e) (is_same_month_end e);
  eq_measurement_idx : measurement_idx e =
    (if str_find (content_after_imports_66 e) CACHE_COMMENT 0 =? -1
     then str_find (content_after_imports_66 e) CACHE_CONST 0
     else str_find (content_after_imports_66 e) CACHE_COMMENT 0);
  eq_month_grid_start : month_grid_start e =
    str_find (content_after_imports_66 e) MONTH_GRID 0;
  eq_78 : content_after_imports_78 e =
    (if negb (month_grid_start e =? -1) && negb (measurement_idx e =? -1)
     then slice_to (content_after_imports_66 e) (month_grid_start e) ++
          NL ++
          slice_from (content_after_imports_66 e) (measurement_idx e)
     else content_after_imports_66 e);
  eq_final_content : final_content e =
    updated_imports e ++ content_after_imports_78 e
}.

Lemma let_intro {A B} (v : A) (f : A -> B) (P : B -> Prop) :
  (forall x, x = v -> P (f x)) -> P (let x := v in f x).
Proof. intros H. exact (H v eq_refl). Qed.

(** Names the value of the outermost [let] of a run under inspection, so
    that the text of the script is never copied into its later lines. *)
Ltac step_let :=
  lazymatch goal with
  | |- ?l = ?r -> ?Q =>
      lazymatch l with
      | (let x := ?v in @?f x) =>
          refine (let_intro v f (fun b => b = r -> Q) _);
          let y := fresh "v" in
          let Hy := fresh "Hv" in
          intros y Hy; cbv beta
      end
  end.

Ltac name_input_props ip Hip :=
  match goal with
  | H : ?o = re_search INPUT_PROPS_RE ?s |- _ =>
      destruct (input_props_total s) as [ip Hip]; rewrite <- H in Hip
  end.

Ltac twice_assigned :=
  match goal with
  | H : ?x = (if ?y =? -1 then _ else ?y), H' : ?y = _ |- ?x = _ =>
      rewrite H, H'; reflexivity
  end.

Lemma let_subst {A B} (v z : A) (f : A -> B) (P : B -> Prop) :
  z = v -> P (f z) -> P (let x := v in f x).
Proof. intros -> H. exact H. Qed.

(** The same, for a second run whose [let] has the value of one already
    named. *)
Ltac same_let :=
  lazymatch goal with
  | |- ?l = ?r =>
      lazymatch l with
      | (let x := ?v in @?f x) =>
          match goal with
          | H : ?z = v |- _ =>
              refine (let_subst v z f (fun b => b = r) H _); cbv beta
          end
      end
  end.

Lemma script_inv (c : str) (e : env) : script c = Ok e -> script_eqs c e.
Proof.
  cbv beta delta [script].
  repeat step_let. name_input_props ip Hip.
  rewrite Hip. cbv beta iota delta [bind].
  repeat step_let.
  intros [= <-].
  split;
    cbn [import_end import_section updated_imports measurement_cache_start
         content_after_imports_41 get_font_size_end content_after_imports_43
         card_props_start card_component_end content_after_imports_49
         input_props_match input_props renderer_start renderer_end
         content_after_imports_59 is_same_month_start is_same_month_end
         content_after_imports_66 measurement_idx month_grid_start
         content_after_imports_78 final_content];
    first [assumption | twice_assigned].
Qed.

Lemma script_total (c : str) : exists e, script c = Ok e.
Proof.
  cbv beta zeta delta [script].
  lazymatch goal with
  | |- context [re_search INPUT_PROPS_RE ?s] =>
      destruct (input_props_total s) as [ip Hip]
  end.
  rewrite Hip. cbv beta iota delta [bind]. eexists. reflexivity.
Qed.

Lemma script_without_eq (c : str) (e : env) :
  script c = Ok e -> script_without_lines_36_38 c = Ok (final_content e).
Proof.
  cbv beta delta [script script_without_lines_36_38].
  repeat step_let. name_input_props ip Hip.
  rewrite Hip. cbv beta iota delta [bind].
  repeat step_let.
  intros [= <-]. cbv beta iota delta [final_content].
  repeat same_let. rewrite Hip. cbv beta iota delta [bind].
  repeat same_let. reflexivity.
Qed.

(** ** Buffers of a run *)

Lemma len_app (s t : str) : len (s ++ t) = len s + len t.
Proof. unfold len. rewrite length_app. lia. Qed.

Lemma len_nonneg (s : str) : 0 <= len s.
Proof. unfold len. lia. Qed.

Lemma len_drop (s : str) (n : Z) :
  0 <= n <= len s -> len (drop (Z.to_nat n) s) = len s - n.
Proof. unfold len. rewrite length_drop. lia. Qed.

Lemma str_slice_in_range (c : str) (x y : Z) :
  0 <= x <= y -> y <= len c ->
  str_slice c (Some x) (Some y) = take (Z.to_nat (y - x)) (drop (Z.to_nat x) c).
Proof.
  intros Hx Hy. unfold str_slice, clamp_index.
  destruct (Z.ltb_spec x 0); [lia|]. destruct (Z.ltb_spec y 0); [lia|].
  rewrite !Z.min_l by lia. reflexivity.
Qed.

Lemma len_str_slice (c : str) (x y : Z) :
  0 <= x <= y -> y <= len c -> len (str_slice c (Some x) (Some y)) = y - x.
Proof.
  intros Hx Hy. rewrite str_slice_in_range by done.
  unfold len in *. rewrite length_take, length_drop. lia.
Qed.

(** The buffers of a run have the shape [D ++ drop pos c]: what has been
    settled so far, then a tail of the input. *)
Lemma slice_to_settled (c D : str) (pos a : Z) :
  0 <= pos -> len D <= a -> a <= len D + (len c - pos) ->
  slice_to (D ++ drop (Z.to_nat pos) c) a =
  D ++ str_slice c (Some pos) (Some (pos + (a - len D))).
Proof.
  intros Hpos Ha Hb. pose proof (len_nonneg D).
  rewrite slice_to_nonneg by lia.
  rewrite take_app_ge by (unfold len in *; lia).
  rewrite str_slice_in_range by lia.
  do 2 f_equal. unfold len. lia.
Qed.

Lemma slice_from_settled (c D : str) (pos b : Z) :
  0 <= pos -> len D <= b ->
  slice_from (D ++ drop (Z.to_nat pos) c) b =
  drop (Z.to_nat (pos + (b - len D))) c.
Proof.
  intros Hpos Hb. pose proof (len_nonneg D).
  rewrite slice_from_nonneg by lia.
  rewrite drop_app_ge by (unfold len in *; lia).
  rewrite drop_drop. f_equal. unfold len in *. lia.
Qed.

Lemma found_spec (i : Z) : found i = true <-> i <> -1.
Proof. unfold found. destruct (Z.eqb_spec i (-1)); simpl; split; congruence. Qed.

(** A found needle lies inside the buffer. *)
Lemma str_find_bounds (s sub : str) (start : Z) :
  found (str_find s sub start) = true ->
  0 <= str_find s sub start /\ str_find s sub start + len sub <= len s /\
  adjust_start start (len s) <= str_find s sub start.
Proof.
  rewrite found_spec. intros Hne.
  pose proof (str_find_ge_m1 s sub start).
  destruct (str_find_found s sub start _ eq_refl) as (H1 & H2 & _); [lia|].
  lia.
Qed.

Lemma str_slice_from_0 (c : str) (i : Z) :
  str_slice c (Some 0) (Some i) = slice_to c i.
Proof.
  unfold slice_to, str_slice. 
  replace (clamp_index 0 (len c)) with 0; [reflexivity|].
  unfold clamp_index, len. simpl. lia.
Qed.

Ltac split_ands :=
  repeat match goal with
  | H : _ && _ = true |- _ => apply andb_true_iff in H as [H ?]
  end.

Lemma len_CLOSE_SEMI : len CLOSE_SEMI = 2. Proof. reflexivity. Qed.
Lemma len_CLOSE : len CLOSE = 1. Proof. reflexivity. Qed.


Lemma found_bounds (s sub : str) (start i : Z) :
  i = str_find s sub start -> found i = true ->
  0 <= i /\ i + len sub <= len s /\ adjust_start start (len s) <= i.
Proof. intros ->. apply str_find_bounds. Qed.

Lemma adjust_start_nonneg_id (start n : Z) : 0 <= start -> adjust_start start n = start.
Proof. intros H. unfold adjust_start. destruct (Z.ltb_spec start 0); lia. Qed.

Lemma len_nil : len [] = 0.
Proof. reflexivity. Qed.

Lemma len_NL : len NL = 1.
Proof. reflexivity. Qed.

Lemma splice_decomposition (c : str) (e : env) :
  script c = Ok e -> well_formed e = true ->
  forall p0 p1 p2 p3 p4 p5 p6 p7 p8 p9,
    removed_spans e = [(p0, p1); (p2, p3); (p4, p5); (p6, p7); (p8, p9)] ->
    (0 <= p0 /\ p0 <= p1 /\ p1 <= p2 /\ p2 <= p3 /\ p3 <= p4 /\ p4 <= p5 /\
     p5 <= p6 /\ p6 <= p7 /\ p7 <= p8 /\ p8 <= p9 /\ p9 <= len c) /\
    import_section e = str_slice c (Some 0) (Some p0) /\
    content_after_imports_78 e =
      str_slice c (Some p1) (Some p2) ++ str_slice c (Some p3) (Some p4) ++
      input_props e ++ NL ++ NL ++
      str_slice c (Some p5) (Some p6) ++ str_slice c (Some p7) (Some p8) ++
      NL ++ slice_from c p9.
Proof.
  intros Hrun Hwf p0 p1 p2 p3 p4 p5 p6 p7 p8 p9 Hspans.
  apply script_inv in Hrun
    as [Eie Eis Eui Emcs E41 Egfe E43 Ecps Ecce E49 Eipm Eip Ers Ere E59
        Eims Eime E66 Emi Emgs E78 Efc].
  unfold removed_spans in Hspans. cbv zeta in Hspans.
  injection Hspans as Hp0 Hp1 Hp2 Hp3 Hp4 Hp5 Hp6 Hp7 Hp8 Hp9.
  unfold well_formed in Hwf. cbv zeta in Hwf. split_ands.
  repeat match goal with
  | H : (_ <=? _) = true |- _ => apply Z.leb_le in H
  | H : found (str_find _ _ _) = true |- _ => apply str_find_bounds in H
  end.
  pose proof len_CLOSE_SEMI. pose proof len_CLOSE. pose proof len_NL.
  pose proof (len_nonneg (input_props e)).
  (* line 13 to 16 *)
  destruct (found_bounds _ _ _ _ Eie Hwf) as (? & ? & _).
  pose proof (len_nonneg FONT_SIZE_COMMENT).
  assert (B41 : content_after_imports_41 e = [] ++ drop (Z.to_nat p0) c).
  { rewrite E41, slice_from_nonneg by lia. rewrite Hp0. reflexivity. }
  assert (L41 : len (content_after_imports_41 e) = len c - p0).
  { rewrite B41. simpl. apply len_drop. lia. }
  (* line 41 to 43 *)
  assert (B43 : content_after_imports_43 e = [] ++ drop (Z.to_nat p1) c).
  { rewrite E43, B41, slice_from_settled by (rewrite ?len_nil; lia).
    rewrite len_nil. simpl. f_equal. lia. }
  assert (L43 : len (content_after_imports_43 e) = len c - p1).
  { rewrite B43. simpl. apply len_drop. lia. }
  (* line 47 to 50 *)
  match goal with H : found (card_props_start e) = true |- _ =>
    destruct (found_bounds _ _ _ _ Ecps H) as (? & ? & _) end.
  pose proof (len_nonneg CARD_INTERFACES).
  set (k1 := str_slice c (Some p1) (Some p2)).
  assert (Lk1 : len k1 = card_props_start e).
  { unfold k1. rewrite len_str_slice by lia. lia. }
  assert (B49 : content_after_imports_49 e = k1 ++ drop (Z.to_nat p3) c).
  { rewrite E49, B43.
    rewrite slice_to_settled, slice_from_settled by (rewrite ?len_nil; lia).
    rewrite len_nil. simpl. unfold k1. do 3 f_equal; lia. }
  assert (L49 : len (content_after_imports_49 e) = card_props_start e + (len c - p3)).
  { rewrite B49, len_app, len_drop by lia. lia. }
  (* line 57 to 61 *)
  match goal with H : found (renderer_start e) = true |- _ =>
    destruct (found_bounds _ _ _ _ Ers H) as (? & ? & _) end.
  pose proof (len_nonneg TYPE_DEFINITIONS).
  set (k2 := str_slice c (Some p3) (Some p4)).
  assert (Lk2 : len k2 = renderer_start e - card_props_start e).
  { unfold k2. rewrite len_str_slice by lia. lia. }
  set (D59 := k1 ++ k2 ++ input_props e ++ NL ++ NL).
  assert (LD59 : len D59 = renderer_start e + len (input_props e) + 2).
  { unfold D59. rewrite !len_app. lia. }
  assert (B59 : content_after_imports_59 e = D59 ++ drop (Z.to_nat p5) c).
  { rewrite E59, B49.
    rewrite slice_to_settled, slice_from_settled by lia.
    unfold D59, k2. rewrite <- !app_assoc. do 3 f_equal; [f_equal; lia|].
    do 4 f_equal. lia. }
  assert (L59 : len (content_after_imports_59 e) =
                renderer_start e + len (input_props e) + 2 + (len c - p5)).
  { rewrite B59, len_app, len_drop by lia. lia. }
  (* line 64 to 67 *)
  match goal with H : found (is_same_month_start e) = true |- _ =>
    destruct (found_bounds _ _ _ _ Eims H) as (? & ? & _) end.
  pose proof (len_nonneg IS_SAME_MONTH).
  rewrite (adjust_start_nonneg_id (is_same_month_start e)) in * by lia.
  set (k3 := str_slice c (Some p5) (Some p6)).
  assert (Lk3 : len k3 = is_same_month_start e - len D59).
  { unfold k3. rewrite len_str_slice by lia. lia. }
  assert (B66 : content_after_imports_66 e = (D59 ++ k3) ++ drop (Z.to_nat p7) c).
  { rewrite E66, B59.
    rewrite slice_to_settled, slice_from_settled by lia.
    unfold k3. do 4 f_equal; lia. }
  assert (L66 : len (content_after_imports_66 e) =
                is_same_month_start e + (len c - p7)).
  { rewrite B66, !len_app, len_drop by lia. lia. }
  (* line 71 to 80 *)
  match goal with H : found (month_grid_start e) = true |- _ =>
    pose proof H as Fmg;
    destruct (found_bounds _ _ _ _ Emgs H) as (? & ? & _) end.
  pose proof (len_nonneg MONTH_GRID).
  assert (0 <= measurement_idx e <= len (content_after_imports_66 e)) as Hmi.
  { match goal with H : found (measurement_idx e) = true |- _ =>
      rewrite Emi in H |- *; revert H end.
    destruct (str_find (content_after_imports_66 e) CACHE_COMMENT 0 =? -1);
      intros Hf; apply str_find_bounds in Hf.
    - pose proof (len_nonneg CACHE_CONST). lia.
    - pose proof (len_nonneg CACHE_COMMENT). lia. }
  set (k4 := str_slice c (Some p7) (Some p8)).
  assert (B78 : content_after_imports_78 e =
                ((D59 ++ k3) ++ k4) ++ NL ++ drop (Z.to_nat p9) c).
  { rewrite E78.
    fold (found (month_grid_start e)) (found (measurement_idx e)).
    match goal with H : found (measurement_idx e) = true |- _ => rewrite Fmg, H end.
    simpl andb. cbv iota.
    rewrite B66.
    rewrite slice_to_settled, slice_from_settled by (rewrite ?len_app; lia).
    unfold k4. rewrite !len_app. do 4 f_equal; [f_equal; lia|].
    do 2 f_equal. lia. }
  split; [lia|]. split.
  - rewrite str_slice_from_0, <- Hp0. exact Eis.
  - rewrite B78. unfold D59. rewrite slice_from_nonneg by lia.
    rewrite <- !app_assoc. reflexivity.
Qed.

(** ** Spans *)

Lemma in_order_le (c : str) (spans : list (Z * Z)) (pos : Z) :
  in_order c pos spans -> pos <= len c.
Proof.
  revert pos. induction spans as [|[a b] spans IH]; simpl; intros pos.
  - done.
  - intros (Ha & Hb & Hrest). apply IH in Hrest. lia.
Qed.

(** Cut at spans that come one after the other, the input is its kept
    and removed pieces in turn. *)
Lemma outside_partition (c : str) (spans : list (Z * Z)) (pos : Z) :
  0 <= pos -> in_order c pos spans ->
  weave (outside c pos spans) (inside c spans) = drop (Z.to_nat pos) c.
Proof.
  revert pos. induction spans as [|[a b] spans IH]; intros pos Hpos; simpl.
  - intros _. apply slice_from_nonneg. done.
  - intros (Ha & Hb & Hrest). pose proof (in_order_le _ _ _ Hrest).
    rewrite IH by (done || lia).
    rewrite !str_slice_in_range by lia.
    rewrite <- (take_drop (Z.to_nat (a - pos)) (drop (Z.to_nat pos) c)) at 2.
    f_equal. rewrite drop_drop.
    replace (Z.to_nat pos + Z.to_nat (a - pos))%nat with (Z.to_nat a) by lia.
    rewrite <- (take_drop (Z.to_nat (b - a)) (drop (Z.to_nat a) c)) at 2.
    f_equal. rewrite drop_drop. f_equal. lia.
Qed.

Lemma occurs_piece (sub t s pre post : str) :
  s = pre ++ t ++ post -> occurs sub t -> occurs sub s.
Proof.
  intros -> (a & b & ->). exists (pre ++ a), (b ++ post).
  rewrite <- !app_assoc. reflexivity.
Qed.

Lemma occurs_slice (sub s : str) (lo hi : option Z) :
  occurs sub (str_slice s lo hi) -> occurs sub s.
Proof.
  destruct (str_slice_piece s lo hi) as (pre & post & H).
  intros Hocc. eapply occurs_piece; [exact H | exact Hocc].
Qed.

(** ** The pattern *)

Lemma plus_not_le (c : char) (rest : str -> option nat) (s : str) (n : nat) :
  (forall t k, rest t = Some k -> (k <= length t)%nat) ->
  plus_not c rest s = Some n -> (n <= length s)%nat.
Proof.
  intros Hrest. revert n. induction s as [|x s IH]; intros n; simpl.
  - discriminate.
  - destruct (x =? c)%N; [discriminate|].
    destruct (plus_not c rest s) as [k|].
    + intros [= <-]. specialize (IH k eq_refl). lia.
    + destruct (rest s) as [k|] eqn:E; [|discriminate].
      intros [= <-]. apply Hrest in E. lia.
Qed.

Lemma match_here_le (p : pattern) (s : str) (n : nat) :
  match_here p s = Some n -> (n <= length s)%nat.
Proof.
  revert s n. induction p as [|[c|c] p IH]; intros s n; simpl.
  - intros [= <-]. lia.
  - destruct s as [|x s]; [discriminate|].
    destruct (x =? c)%N; [|discriminate].
    destruct (match_here p s) as [k|] eqn:E; [|discriminate].
    intros [= <-]. apply IH in E. simpl. lia.
  - apply plus_not_le. exact IH.
Qed.

(** What [re.search] found: the pattern matches the found text where it
    stands, and matches at no earlier offset. *)
Lemma re_search_Some (p : pattern) (s : str) (m : match_obj) :
  re_search p s = Some m ->
  exists (i n : nat),
    match_here p (drop i s) = Some n /\
    m_groups m = [take n (drop i s); take n (drop i s)] /\
    forall j, (j < i)%nat -> match_here p (drop j s) = None.
Proof.
  induction s as [|x s IH]; simpl.
  - destruct (match_here p []) as [n|] eqn:E; [|discriminate].
    intros [= <-]. exists 0%nat, n. split; [done|]. split; [done|]. lia.
  - destruct (match_here p (x :: s)) as [n|] eqn:E.
    + intros [= <-]. exists 0%nat, n. split; [done|]. split; [done|]. lia.
    + intros H. destruct (IH H) as (i & n & H1 & H2 & H3).
      exists (S i), n. split; [done|]. split; [done|].
      intros [|j] Hj; [exact E|]. apply H3. lia.
Qed.

Lemma re_search_None (p : pattern) (s : str) :
  re_search p s = None -> forall j, (j <= length s)%nat -> match_here p (drop j s) = None.
Proof.
  induction s as [|x s IH]; simpl.
  - destruct (match_here p []) eqn:E; [discriminate|].
    intros _ j Hj. by rewrite drop_nil.
  - destruct (match_here p (x :: s)) eqn:E; [discriminate|].
    intros H [|j] Hj; [exact E|]. apply IH; [done|lia].
Qed.

(** ** The script with its files *)

Lemma main_run (w : world) (c : str) (e : env) :
  files w !! INPUT_PATH = Some c -> script c = Ok e ->
  main w = (Ok tt, {| files := <[OUTPUT_PATH := final_content e]> (files w);
                      stdout := (stdout w ++ [STATUS_WRITTEN]) ++ [STATUS_REVIEW] |}).
Proof.
  intros Hin Hrun.
  unfold main, io_bind, read_file, lift, write_file, print.
  rewrite Hin, Hrun. reflexivity.
Qed.

Lemma main_without_run (w : world) (c out : str) :
  files w !! INPUT_PATH = Some c -> script_without_lines_36_38 c = Ok out ->
  main_without_lines_36_38 w =
  (Ok tt, {| files := <[OUTPUT_PATH := out]> (files w);
             stdout := (stdout w ++ [STATUS_WRITTEN]) ++ [STATUS_REVIEW] |}).
Proof.
  intros Hin Hrun.
  unfold main_without_lines_36_38, io_bind, read_file, lift, write_file, print.
  rewrite Hin, Hrun. reflexivity.
Qed.

Lemma main_no_input (w : world) :
  files w !! INPUT_PATH = None ->
  main w = (Raise FileNotFoundError, w) /\
  main_without_lines_36_38 w = (Raise FileNotFoundError, w).
Proof.
  intros Hin.
  unfold main, main_without_lines_36_38, io_bind, read_file.
  rewrite Hin. split; reflexivity.
Qed.

Lemma paths_differ : INPUT_PATH <> OUTPUT_PATH.
Proof. discriminate. Qed.

(** * The claims *)

(** C9.  For every input string whatsoever the text transformation ends
    without an exception and yields an output: the script has a run [e]
    with a [final_content].  The three reasons are part of the statement:
    every [find] returns [-1] at worst, slices are defined at every index
    ([str_slice] is a total function of [Z] bounds), and the one [group]
    call, behind its [None] check, raises nothing on any buffer. *)
Theorem transform_is_total (c : str) :
  (exists e, script c = Ok e) /\
  (forall (s sub : str) (start : Z), -1 <= str_find s sub start) /\
  (forall s : str,
     exists ip,
       match re_search INPUT_PROPS_RE s with
       | Some m => group m 1
       | None => Ok []
       end = Ok ip).
Proof.
  split; [apply script_total|].
  split; [apply str_find_ge_m1 | apply input_props_total].
Qed.

(** C1, as stated, fails where [const getFontSize =] is missing: the
    sentinel of that lookup is not a slice bound.  It is the [start] of the
    search for [};], which finds nothing in the one character it is left
    with, so the bound of the slice on line 43 is [-1 + 2 = 1]: the buffer
    loses its first character, where a bound of [-1] would keep only its
    last. *)
Lemma get_font_size_sentinel_is_not_a_slice_bound :
  exists e,
    script sample_without_get_font_size = Ok e /\
    str_find sample_without_get_font_size GET_FONT_SIZE 0 = -1 /\
    str_find (content_after_imports_41 e) GET_FONT_SIZE 0 = -1 /\
    get_font_size_end e = 1 /\
    content_after_imports_43 e = slice_from (content_after_imports_41 e) 1 /\
    content_after_imports_43 e <> slice_from (content_after_imports_41 e) (-1).
Proof.
  eexists. split; [vm_compute; reflexivity|].
  vm_compute. repeat split; discriminate.
Qed.

(** C1, amended.  For every input the transform raises no error and
    produces an output buffer, whichever markers are missing.  When
    [// Font size utility function] or
    [// Add these interfaces after the existing ones] does not occur in the
    input, or [// Add these type definitions] does not occur in the buffer
    searched for it, the sentinel [-1] of the lookup is itself the bound of
    the slices that follow.  When [const getFontSize =] does not occur in
    the input, the sentinel is the start of the search for [};], that
    search returns [-1] too, and the bound of the slice is [1]. *)
Theorem missing_marker_raises_nothing (c : str) :
  exists e,
    script c = Ok e /\
    (~ occurs FONT_SIZE_COMMENT c ->
       import_end e = -1 /\
       import_section e = slice_to c (-1) /\
       content_after_imports_41 e = slice_from c (-1)) /\
    (~ occurs GET_FONT_SIZE c ->
       str_find (content_after_imports_41 e) GET_FONT_SIZE 0 = -1 /\
       get_font_size_end e = 1 /\
       content_after_imports_43 e = slice_from (content_after_imports_41 e) 1) /\
    (~ occurs CARD_INTERFACES c ->
       card_props_start e = -1 /\
       content_after_imports_49 e =
         slice_to (content_after_imports_43 e) (-1) ++
         slice_from (content_after_imports_43 e) (card_component_end e)) /\
    (~ occurs TYPE_DEFINITIONS (content_after_imports_49 e) ->
       renderer_start e = -1 /\
       content_after_imports_59 e =
         slice_to (content_after_imports_49 e) (-1) ++
         input_props e ++ NL ++ NL ++
         slice_from (content_after_imports_49 e) (renderer_end e)).
Proof.
  destruct (script_total c) as [e Hrun]. exists e. split; [exact Hrun|].
  apply script_inv in Hrun
    as [Eie Eis Eui Emcs E41 Egfe E43 Ecps Ecce E49 Eipm Eip Ers Ere E59
        Eims Eime E66 Emi Emgs E78 Efc].
  assert (H41 : forall sub, ~ occurs sub c -> ~ occurs sub (content_after_imports_41 e)).
  { intros sub Hno Hocc. apply Hno. rewrite E41 in Hocc.
    by apply occurs_slice in Hocc. }
  assert (H43 : forall sub, ~ occurs sub c -> ~ occurs sub (content_after_imports_43 e)).
  { intros sub Hno Hocc. apply (H41 sub Hno). rewrite E43 in Hocc.
    by apply occurs_slice in Hocc. }
  repeat split.
  - rewrite Eie. by apply str_find_absent.
  - rewrite Eis, Eie, str_find_absent; done.
  - rewrite E41, Eie, str_find_absent; done.
  - apply str_find_absent. by apply H41.
  - rewrite Egfe, (str_find_absent _ GET_FONT_SIZE) by (by apply H41).
    rewrite str_find_last_char; done.
  - rewrite E43, Egfe, (str_find_absent _ GET_FONT_SIZE) by (by apply H41).
    rewrite str_find_last_char; done.
  - rewrite Ecps. apply str_find_absent. by apply H43.
  - rewrite E49, Ecps, str_find_absent; [done|]. by apply H43.
  - rewrite Ers. by apply str_find_absent.
  - rewrite E59, Ers, str_find_absent; done.
Qed.

(** C5, as stated, fails on a file in which the pattern matches nowhere
    and [interface InputProps] does not even occur: the Card block stands
    between [interface Input] and [Props { v: string }], the removal of
    lines 47 to 50 joins the two, and line 53 searches the joined buffer.
    The run is well-formed and the fragment is not empty. *)
Lemma fragment_made_by_the_card_cut :
  exists e,
    script sample_junction = Ok e /\
    markers_once_in_order sample_junction = true /\
    well_formed e = true /\
    re_search INPUT_PROPS_RE sample_junction = None /\
    str_find sample_junction (lit "interface InputProps") 0 = -1 /\
    input_props e = lit "interface InputProps { v: string }" /\
    input_props e <> [].
Proof.
  eexists. split; [vm_compute; reflexivity|].
  vm_compute. repeat split. discriminate.
Qed.

(** C5, amended.  When the pattern [interface InputProps[^}]+}] matches
    nowhere in the buffer searched on line 53 (the text behind the
    [getFontSize] cut with the Card block taken out, not the input), line
    54 raises nothing and takes the empty string, and the buffer of line
    59 has the empty string where the fragment would stand: the two
    newlines follow the kept head at once. *)
Theorem missing_fragment_gives_empty (c : str) (e : env) :
  script c = Ok e ->
  re_search INPUT_PROPS_RE (content_after_imports_49 e) = None ->
  input_props_match e = None /\
  match input_props_match e with
  | Some m => group m 1
  | None => Ok []
  end = Ok [] /\
  input_props e = [] /\
  content_after_imports_59 e =
    slice_to (content_after_imports_49 e) (renderer_start e) ++
    NL ++ NL ++
    slice_from (content_after_imports_49 e) (renderer_end e).
Proof.
  intros Hrun Hnone.
  apply script_inv in Hrun
    as [Eie Eis Eui Emcs E41 Egfe E43 Ecps Ecce E49 Eipm Eip Ers Ere E59
        Eims Eime E66 Emi Emgs E78 Efc].
  rewrite Hnone in Eipm. rewrite Eipm in Eip |- *.
  injection Eip as Eip. rewrite E59, <- Eip. done.
Qed.

Lemma missing_fragment_gives_empty_witness :
  exists e,
    script sample_without_input_props = Ok e /\
    re_search INPUT_PROPS_RE (content_after_imports_49 e) = None /\
    input_props e = [].
Proof.
  eexists. split; [vm_compute; reflexivity|].
  split; [vm_compute; reflexivity|].
  eapply (missing_fragment_gives_empty sample_without_input_props);
    vm_compute; reflexivity.
Defined.

(** [s[:a] + s[b:]] for [a <= b] inside [s] takes [s[a:b]] out; for
    [b <= a] it puts [s[b:a]] in a second time. *)
Lemma slices_remove (s : str) (a b : Z) :
  0 <= a <= b -> b <= len s ->
  exists pre mid post,
    s = pre ++ mid ++ post /\
    len pre = a /\ len mid = b - a /\
    pre = slice_to s a /\ post = slice_from s b.
Proof.
  intros Ha Hb.
  exists (slice_to s a), (str_slice s (Some a) (Some b)), (slice_from s b).
  split; [|split; [|split; [apply len_str_slice; lia | done]]].
  - rewrite slice_to_nonneg, slice_from_nonneg, str_slice_in_range by lia.
    rewrite <- (take_drop (Z.to_nat a) s) at 1. f_equal.
    rewrite <- (take_drop (Z.to_nat (b - a)) (drop (Z.to_nat a) s)) at 1. f_equal.
    rewrite drop_drop. f_equal. lia.
  - rewrite slice_to_nonneg by lia. unfold len in *. rewrite length_take. lia.
Qed.

Lemma slices_repeat (s : str) (a b : Z) :
  0 <= b <= a -> a <= len s ->
  exists pre mid post,
    s = pre ++ mid ++ post /\
    len pre = b /\ len mid = a - b /\
    slice_to s a = pre ++ mid /\ slice_from s b = mid ++ post.
Proof.
  intros Hb Ha.
  exists (slice_to s b), (str_slice s (Some b) (Some a)), (slice_from s a).
  assert (Hs : s = slice_to s b ++ str_slice s (Some b) (Some a) ++ slice_from s a).
  { rewrite slice_to_nonneg, slice_from_nonneg, str_slice_in_range by lia.
    rewrite <- (take_drop (Z.to_nat b) s) at 1. f_equal.
    rewrite <- (take_drop (Z.to_nat (a - b)) (drop (Z.to_nat b) s)) at 1. f_equal.
    rewrite drop_drop. f_equal. lia. }
  split; [exact Hs|]. split; [|split; [apply len_str_slice; lia|split]].
  - rewrite slice_to_nonneg by lia. unfold len in *. rewrite length_take. lia.
  - rewrite !slice_to_nonneg, str_slice_in_range by lia.
    rewrite <- (take_drop (Z.to_nat b) (take (Z.to_nat a) s)).
    rewrite take_take, Nat.min_l by lia. f_equal.
    rewrite take_drop_commute. f_equal. f_equal. lia.
  - rewrite !slice_from_nonneg, str_slice_in_range by lia.
    rewrite <- (take_drop (Z.to_nat (a - b)) (drop (Z.to_nat b) s)) at 1. f_equal.
    rewrite drop_drop. f_equal. lia.
Qed.

(** Where a needle is found, the string goes on with the needle. *)
Lemma str_find_here (s sub : str) (start i : Z) :
  i = str_find s sub start -> i <> -1 ->
  0 <= i /\ i + len sub <= len s /\
  exists rest, slice_from s i = sub ++ rest.
Proof.
  intros Hi Hne. pose proof (str_find_ge_m1 s sub start).
  assert (H0 : 0 <= i) by lia.
  destruct (str_find_found s sub start i (eq_sym Hi) H0) as (_ & Hfit & [rest Hrest] & _).
  split; [done|]. split; [done|].
  exists rest. by rewrite slice_from_nonneg.
Qed.

(** C3.  In the last removal the anchor is looked up as
    [// Add this outside the component to cache measurements] and, only
    when that is not in the buffer, as [const measurementCache = {]: the
    comment wins wherever the other string stands.  When the MonthGrid
    comment and the anchor are both found, the comment first, the buffer
    loses the span that starts with the comment and ends where the anchor
    starts, and has one newline in its place.  When either lookup fails
    the buffer stays as it is, so a buffer that has changed had both
    found.  (With both found and the anchor ahead of the comment there is
    no such span: nothing is removed and the text between the two stands
    twice.) *)
Theorem final_removal_cuts_the_span (c : str) (e : env) :
  script c = Ok e ->
  (occurs CACHE_COMMENT (content_after_imports_66 e) ->
     exists pre rest,
       content_after_imports_66 e = pre ++ CACHE_COMMENT ++ rest /\
       len pre = measurement_idx e /\
       forall k, 0 <= k < measurement_idx e ->
         ~ occurs_at CACHE_COMMENT (content_after_imports_66 e) (Z.to_nat k)) /\
  (~ occurs CACHE_COMMENT (content_after_imports_66 e) ->
     measurement_idx e = str_find (content_after_imports_66 e) CACHE_CONST 0) /\
  (month_grid_start e <> -1 -> measurement_idx e <> -1 ->
   month_grid_start e <= measurement_idx e ->
     exists pre span post anchor,
       content_after_imports_66 e = pre ++ span ++ post /\
       len pre = month_grid_start e /\
       len span = measurement_idx e - month_grid_start e /\
       (exists t, span ++ post = MONTH_GRID ++ t) /\
       (exists t, post = anchor ++ t) /\
       (anchor = CACHE_COMMENT \/ anchor = CACHE_CONST) /\
       content_after_imports_78 e = pre ++ NL ++ post) /\
  (month_grid_start e = -1 \/ measurement_idx e = -1 ->
     content_after_imports_78 e = content_after_imports_66 e) /\
  (content_after_imports_78 e <> content_after_imports_66 e ->
     month_grid_start e <> -1 /\ measurement_idx e <> -1) /\
  (month_grid_start e <> -1 -> measurement_idx e <> -1 ->
   measurement_idx e <= month_grid_start e ->
     exists pre mid post,
       content_after_imports_66 e = pre ++ mid ++ post /\
       len pre = measurement_idx e /\
       len mid = month_grid_start e - measurement_idx e /\
       content_after_imports_78 e = pre ++ mid ++ NL ++ mid ++ post).
Proof.
  intros Hrun.
  apply script_inv in Hrun
    as [Eie Eis Eui Emcs E41 Egfe E43 Ecps Ecce E49 Eipm Eip Ers Ere E59
        Eims Eime E66 Emi Emgs E78 Efc].
  set (buf := content_after_imports_66 e) in *.
  assert (Hunchanged : month_grid_start e = -1 \/ measurement_idx e = -1 ->
                       content_after_imports_78 e = buf).
  { intros [H|H]; rewrite E78; apply Z.eqb_eq in H; rewrite H; simpl; [done|].
    by rewrite andb_false_r. }
  assert (Hcut : month_grid_start e <> -1 -> measurement_idx e <> -1 ->
                 content_after_imports_78 e =
                 slice_to buf (month_grid_start e) ++ NL ++
                 slice_from buf (measurement_idx e)).
  { intros H1 H2. rewrite E78. apply Z.eqb_neq in H1, H2. by rewrite H1, H2. }
  assert (Hanchor : measurement_idx e <> -1 ->
            exists anchor,
              measurement_idx e = str_find buf anchor 0 /\
              (anchor = CACHE_COMMENT \/ anchor = CACHE_CONST)).
  { intros _. destruct (Z.eqb_spec (str_find buf CACHE_COMMENT 0) (-1)) as [Heq|Hne].
    - exists CACHE_CONST. split; [by rewrite Emi|]. by right.
    - exists CACHE_COMMENT. split; [by rewrite Emi|]. by left. }
  split; [|split; [|split; [|split; [|split]]]].
  - intros Hocc. apply str_find_present in Hocc.
    assert (Hidx : measurement_idx e = str_find buf CACHE_COMMENT 0).
    { rewrite Emi. destruct (Z.eqb_spec (str_find buf CACHE_COMMENT 0) (-1)); [lia|done]. }
    destruct (str_find_found buf CACHE_COMMENT 0 _ (eq_sym Hidx) ltac:(lia))
      as (_ & Hfit & [rest Hrest] & Hmin).
    pose proof (len_nonneg CACHE_COMMENT).
    exists (take (Z.to_nat (measurement_idx e)) buf), rest.
    split; [|split].
    + rewrite <- Hrest. symmetry. apply take_drop.
    + unfold len in *. rewrite length_take. lia.
    + intros k Hk. apply Hmin. change (adjust_start 0 (len buf)) with 0. lia.
  - intros Hno. rewrite Emi, (str_find_absent _ CACHE_COMMENT) by done. reflexivity.
  - intros Hg Hi Hord.
    destruct (str_find_here _ _ _ _ Emgs Hg) as (Hg0 & Hgfit & tg & Htg).
    destruct (Hanchor Hi) as (anchor & Hidx & Hwhich).
    destruct (str_find_here _ _ _ _ Hidx Hi) as (Hi0 & Hifit & ti & Hti).
    pose proof (len_nonneg anchor).
    destruct (slices_remove buf (month_grid_start e) (measurement_idx e))
      as (pre & span & post & Hbuf & Hpre & Hspan & -> & ->); [lia|lia|].
    exists (slice_to buf (month_grid_start e)), span,
           (slice_from buf (measurement_idx e)), anchor.
    split; [exact Hbuf|]. split; [exact Hpre|]. split; [exact Hspan|].
    split; [|split; [by exists ti|split; [exact Hwhich|by apply Hcut]]].
    exists tg. rewrite <- Htg.
    rewrite (slice_from_nonneg buf (month_grid_start e)) by done.
    pose proof (f_equal (drop (Z.to_nat (month_grid_start e))) Hbuf) as Hd.
    rewrite drop_app_length' in Hd by (unfold len in Hpre; lia).
    symmetry. exact Hd.
  - exact Hunchanged.
  - intros Hchanged.
    destruct (Z.eq_dec (month_grid_start e) (-1)) as [H|H];
      [exfalso; apply Hchanged, Hunchanged; by left|].
    destruct (Z.eq_dec (measurement_idx e) (-1)) as [H'|H'];
      [exfalso; apply Hchanged, Hunchanged; by right|].
    done.
  - intros Hg Hi Hord.
    destruct (str_find_here _ _ _ _ Emgs Hg) as (Hg0 & Hgfit & _).
    destruct (Hanchor Hi) as (anchor & Hidx & _).
    destruct (str_find_here _ _ _ _ Hidx Hi) as (Hi0 & Hifit & _).
    pose proof (len_nonneg MONTH_GRID).
    destruct (slices_repeat buf (month_grid_start e) (measurement_idx e))
      as (pre & mid & post & Hbuf & Hpre & Hmid & Hto & Hfrom); [lia|lia|].
    exists pre, mid, post.
    split; [exact Hbuf|]. split; [exact Hpre|]. split; [exact Hmid|].
    rewrite (Hcut Hg Hi), Hto, Hfrom, <- !app_assoc. reflexivity.
Qed.

Lemma final_removal_cuts_the_span_witness :
  exists e pre span post,
    script sample = Ok e /\
    content_after_imports_66 e = pre ++ span ++ post /\
    len pre = month_grid_start e /\
    len span = measurement_idx e - month_grid_start e /\
    content_after_imports_78 e = pre ++ NL ++ post.
Proof.
  assert (exists e,
    script sample = Ok e /\
    found (month_grid_start e) = true /\
    found (measurement_idx e) = true /\
    (month_grid_start e <=? measurement_idx e) = true)
    as (e & Hrun & F1 & F2 & Hord).
  { eexists. split; [vm_compute; reflexivity|]. vm_compute. repeat split. }
  destruct (final_removal_cuts_the_span sample e Hrun) as (_ & _ & Hcut & _).
  destruct (Hcut (proj1 (found_spec _) F1) (proj1 (found_spec _) F2)
              (proj1 (Z.leb_le _ _) Hord))
    as (pre & span & post & anchor & H1 & H2 & H3 & _ & _ & _ & H4).
  exists e, pre, span, post.
  split; [exact Hrun|]. split; [exact H1|]. split; [exact H2|].
  split; [exact H3 | exact H4].
Defined.

(** The kept pieces and the removed spans of a well-formed run, by name. *)
Lemma well_formed_pieces (c : str) (e : env) :
  script c = Ok e -> well_formed e = true ->
  exists k0 k1 k2 k3 k4 k5 r1 r2 r3 r4 r5,
    in_order c 0 (removed_spans e) /\
    outside c 0 (removed_spans e) = [k0; k1; k2; k3; k4; k5] /\
    inside c (removed_spans e) = [r1; r2; r3; r4; r5] /\
    c = k0 ++ r1 ++ k1 ++ r2 ++ k2 ++ r3 ++ k3 ++ r4 ++ k4 ++ r5 ++ k5 /\
    import_section e = k0 /\
    content_after_imports_78 e =
      k1 ++ k2 ++ (input_props e ++ NL ++ NL) ++ k3 ++ k4 ++ NL ++ k5.
Proof.
  intros Hrun Hwf.
  destruct (splice_decomposition c e Hrun Hwf _ _ _ _ _ _ _ _ _ _ eq_refl)
    as (Hord & Hk0 & Hafter).
  assert (Hin : in_order c 0 (removed_spans e)).
  { unfold removed_spans. cbv zeta. simpl. lia. }
  pose proof (outside_partition c (removed_spans e) 0 ltac:(done) Hin) as Hpart.
  rewrite drop_0 in Hpart.
  do 11 eexists. split; [exact Hin|].
  split; [reflexivity|]. split; [reflexivity|].
  split; [symmetry; exact Hpart|].
  split; [exact Hk0|].
  rewrite Hafter, <- !app_assoc. reflexivity.
Qed.

(** C2, as stated, fails on a file that has every marker once and in the
    expected order: the [InputProps] interface stands behind the
    [Renderer] interface and its first [}] is the one that ends
    [isSameMonth], so the fragment captured on line 53 holds the
    [isSameMonth] comment.  Line 59 puts the fragment in ahead of the real
    comment, line 64 finds the comment in the fragment, and lines 66 to 67
    cut from there to the [};] of the function: [keep C], which stands
    between the end of the [Renderer] interface and the comment, outside
    every removed span, is in the input and not in the output. *)
Lemma kept_text_lost_when_fragment_holds_marker :
  exists e,
    script sample_fragment_holds_marker = Ok e /\
    markers_once_in_order sample_fragment_holds_marker = true /\
    well_formed e = false /\
    str_find sample_fragment_holds_marker (lit "keep C") 0 = 244 /\
    str_find sample_fragment_holds_marker CLOSE
      (str_find sample_fragment_holds_marker INTERFACE_RENDERER 0) + 1 = 243 /\
    str_find sample_fragment_holds_marker IS_SAME_MONTH 0 = 272 /\
    str_find (import_section e ++ content_after_imports_78 e) (lit "keep C") 0 = -1 /\
    str_find (final_content e) (lit "keep C") 0 = -1.
Proof.
  eexists. split; [vm_compute; reflexivity|].
  vm_compute. repeat split.
Qed.

(** C2, amended.  For an input whose run is well-formed (every marker the
    script looks up is found in the buffer it is looked up in, and every
    cut starts at or behind the text that the cuts before it have settled:
    the Card comment at or before the end of the Card block, the type
    definitions at or behind the Card cut and at or before the end of the
    [Renderer] interface, the [isSameMonth] comment behind the fragment
    and the two newlines put in on line 59, the MonthGrid comment at or
    behind the [isSameMonth] cut and at or before the anchor) the removed
    spans lie in the input one after the other, the input is its kept
    pieces [k0 .. k5] and its removed spans in turn, and the retained
    before region followed by the retained after region is [k0 .. k5] in
    that order, every character of them, with the text the script puts in
    (the captured fragment and two newlines after [k2], one newline after
    [k4]) between them. *)
Theorem no_loss_outside_removed_spans (c : str) (e : env) :
  script c = Ok e -> well_formed e = true ->
  in_order c 0 (removed_spans e) /\
  weave (outside c 0 (removed_spans e)) (inside c (removed_spans e)) = c /\
  exists k0 k1 k2 k3 k4 k5,
    outside c 0 (removed_spans e) = [k0; k1; k2; k3; k4; k5] /\
    import_section e = k0 /\
    content_after_imports_78 e =
      k1 ++ k2 ++ (input_props e ++ NL ++ NL) ++ k3 ++ k4 ++ NL ++ k5 /\
    import_section e ++ content_after_imports_78 e =
      k0 ++ k1 ++ k2 ++ (input_props e ++ NL ++ NL) ++ k3 ++ k4 ++ NL ++ k5.
Proof.
  intros Hrun Hwf.
  destruct (well_formed_pieces c e Hrun Hwf)
    as (k0 & k1 & k2 & k3 & k4 & k5 & r1 & r2 & r3 & r4 & r5 &
        Hin & Hout & Hins & Hc & Hk0 & Hafter).
  split; [exact Hin|]. split.
  - rewrite Hout, Hins. simpl. symmetry. exact Hc.
  - exists k0, k1, k2, k3, k4, k5.
    split; [exact Hout|]. split; [exact Hk0|]. split; [exact Hafter|].
    rewrite Hk0, Hafter. reflexivity.
Qed.

Lemma no_loss_outside_removed_spans_witness :
  exists e,
    script sample = Ok e /\ well_formed e = true /\
    weave (outside sample 0 (removed_spans e)) (inside sample (removed_spans e)) =
    sample.
Proof.
  eexists. split; [vm_compute; reflexivity|].
  split; [vm_compute; reflexivity|].
  eapply (no_loss_outside_removed_spans sample); vm_compute; reflexivity.
Defined.



(** C4, as stated, fails on a file that has every marker and the fragment,
    with the MonthGrid comment ahead of the type definitions: the pattern
    matches, the fragment is put in on line 59, and the removal of lines
    78 to 80 takes it out again with the span it now lies in.  The
    fragment occurs in the input and not in the output. *)
Lemma fragment_lost_when_month_grid_comes_first :
  exists e m frag,
    script sample_month_grid_first = Ok e /\
    input_props_match e = Some m /\
    group m 1 = Ok frag /\
    frag = lit "interface InputProps { v }" /\
    input_props e = frag /\
    0 <= str_find sample_month_grid_first frag 0 /\
    str_find (content_after_imports_59 e) frag 0 = 56 /\
    str_find (final_content e) frag 0 = -1.
Proof.
  do 3 eexists. split; [vm_compute; reflexivity|].
  split; [vm_compute; reflexivity|].
  split; [vm_compute; reflexivity|].
  vm_compute. repeat split; discriminate.
Qed.

(** C4, amended.  For a well-formed input in which the pattern matches the
    buffer searched on line 53, the output keeps the matched text [frag]
    as it is, followed by two newlines, between the kept pieces [k2] and
    [k3] of the input: the place of the removed type definitions [r3]. *)
Theorem fragment_retained_when_well_formed (c : str) (e : env) (m : match_obj) :
  script c = Ok e -> well_formed e = true ->
  input_props_match e = Some m ->
  exists frag k0 k1 k2 k3 k4 k5 r1 r2 r3 r4 r5,
    group m 1 = Ok frag /\
    input_props e = frag /\
    (exists pre post,
       content_after_imports_49 e = pre ++ frag ++ post /\
       match_here INPUT_PROPS_RE (frag ++ post) = Some (length frag)) /\
    outside c 0 (removed_spans e) = [k0; k1; k2; k3; k4; k5] /\
    inside c (removed_spans e) = [r1; r2; r3; r4; r5] /\
    c = k0 ++ r1 ++ k1 ++ r2 ++ k2 ++ r3 ++ k3 ++ r4 ++ k4 ++ r5 ++ k5 /\
    final_content e =
      k0 ++ new_imports ++ k1 ++ k2 ++ frag ++ NL ++ NL ++ k3 ++ k4 ++ NL ++ k5.
Proof.
  intros Hrun Hwf Hm.
  destruct (well_formed_pieces c e Hrun Hwf)
    as (k0 & k1 & k2 & k3 & k4 & k5 & r1 & r2 & r3 & r4 & r5 &
        Hin & Hout & Hins & Hc & Hk0 & Hafter).
  apply script_inv in Hrun
    as [Eie Eis Eui Emcs E41 Egfe E43 Ecps Ecce E49 Eipm Eip Ers Ere E59
        Eims Eime E66 Emi Emgs E78 Efc].
  rewrite Hm in Eip, Eipm. symmetry in Eipm.
  apply re_search_Some in Eipm as (i & n & Hmatch & Hgroups & _).
  set (s := content_after_imports_49 e) in *.
  assert (Hfrag : group m 1 = Ok (take n (drop i s))).
  { unfold group. rewrite Hgroups. reflexivity. }
  exists (take n (drop i s)), k0, k1, k2, k3, k4, k5, r1, r2, r3, r4, r5.
  split; [exact Hfrag|].
  split; [congruence|].
  split; [|split; [exact Hout|split; [exact Hins|split; [exact Hc|]]]].
  - exists (take i s), (drop n (drop i s)).
    rewrite (take_drop n (drop i s)), take_drop. split; [reflexivity|].
    rewrite Hmatch. f_equal. apply match_here_le in Hmatch.
    rewrite length_take. lia.
  - rewrite Efc, Eui, Hk0, Hafter.
    replace (input_props e) with (take n (drop i s)) by congruence.
    rewrite <- !app_assoc. reflexivity.
Qed.

Lemma fragment_retained_when_well_formed_witness :
  exists e m,
    script sample = Ok e /\ well_formed e = true /\
    input_props_match e = Some m /\
    exists frag k0 k1 k2 k3 k4 k5 r1 r2 r3 r4 r5,
      group m 1 = Ok frag /\
      input_props e = frag /\
      (exists pre post,
         content_after_imports_49 e = pre ++ frag ++ post /\
         match_here INPUT_PROPS_RE (frag ++ post) = Some (length frag)) /\
      outside sample 0 (removed_spans e) = [k0; k1; k2; k3; k4; k5] /\
      inside sample (removed_spans e) = [r1; r2; r3; r4; r5] /\
      sample = k0 ++ r1 ++ k1 ++ r2 ++ k2 ++ r3 ++ k3 ++ r4 ++ k4 ++ r5 ++ k5 /\
      final_content e =
        k0 ++ new_imports ++ k1 ++ k2 ++ frag ++ NL ++ NL ++ k3 ++ k4 ++ NL ++ k5.
Proof.
  do 2 eexists. split; [vm_compute; reflexivity|].
  split; [vm_compute; reflexivity|].
  split; [vm_compute; reflexivity|].
  apply (fragment_retained_when_well_formed sample); vm_compute; reflexivity.
Defined.

(** C7.  Two runs of the script on independent copies of one input, in
    worlds that may differ in everything but the text of the input file,
    both succeed and write the same text: the output is a function of the
    input text alone.  This holds for every input, so for every
    well-formed one. *)
Theorem splice_is_deterministic (w1 w2 : world) (c : str) :
  files w1 !! INPUT_PATH = Some c ->
  files w2 !! INPUT_PATH = Some c ->
  exists out,
    (main w1).1 = Ok tt /\ (main w2).1 = Ok tt /\
    files (main w1).2 !! OUTPUT_PATH = Some out /\
    files (main w2).2 !! OUTPUT_PATH = Some out.
Proof.
  intros H1 H2. destruct (script_total c) as [e Hrun].
  exists (final_content e).
  rewrite (main_run w1 c e H1 Hrun), (main_run w2 c e H2 Hrun). simpl.
  rewrite !lookup_insert_eq. done.
Qed.

Lemma splice_is_deterministic_witness :
  well_formed_run sample = true /\
  exists out,
    (main sample_world).1 = Ok tt /\ (main sample_world').1 = Ok tt /\
    files (main sample_world).2 !! OUTPUT_PATH = Some out /\
    files (main sample_world').2 !! OUTPUT_PATH = Some out.
Proof.
  split; [vm_compute; reflexivity|].
  apply (splice_is_deterministic sample_world sample_world' sample);
    vm_compute; reflexivity.
Defined.

(** C8.  A run of the script that succeeds read the input file, wrote the
    transformed text to [src/components/CLACalendar.updated.tsx] (made or
    replaced), and printed its two status lines after whatever had been
    printed before.  Every other file is as it was, the input file among
    them. *)
Theorem effects_of_a_successful_run (w w' : world) :
  main w = (Ok tt, w') ->
  exists c e,
    files w !! INPUT_PATH = Some c /\
    script c = Ok e /\
    files w' = <[OUTPUT_PATH := final_content e]> (files w) /\
    stdout w' = stdout w ++ [STATUS_WRITTEN; STATUS_REVIEW] /\
    files w' !! INPUT_PATH = Some c /\
    (forall path, path <> OUTPUT_PATH -> files w' !! path = files w !! path).
Proof.
  intros Hmain.
  destruct (files w !! INPUT_PATH) as [c|] eqn:Hin.
  - destruct (script_total c) as [e Hrun].
    rewrite (main_run w c e Hin Hrun) in Hmain. injection Hmain as <-.
    exists c, e. simpl. rewrite <- app_assoc.
    split; [reflexivity|]. split; [exact Hrun|].
    split; [reflexivity|]. split; [reflexivity|]. split.
    + rewrite lookup_insert_ne; [exact Hin|]. intros H. by apply paths_differ.
    + intros path Hne. by rewrite lookup_insert_ne.
  - destruct (main_no_input w Hin) as [H _]. rewrite H in Hmain. discriminate.
Qed.

Lemma effects_of_a_successful_run_witness :
  exists w',
    main sample_world' = (Ok tt, w') /\
    stdout w' = stdout sample_world' ++ [STATUS_WRITTEN; STATUS_REVIEW] /\
    files w' !! INPUT_PATH = Some sample /\
    files w' !! "README.md"%string = Some (lit "notes").
Proof.
  assert (exists w', main sample_world' = (Ok tt, w')) as [w' Hw']
    by (eexists; vm_compute; reflexivity).
  exists w'. split; [exact Hw'|].
  destruct (effects_of_a_successful_run sample_world' w' Hw')
    as (c & e & Hin & _ & _ & Hout & Hsame & Hframe).
  split; [exact Hout|]. split.
  - rewrite Hsame, <- Hin. vm_compute. reflexivity.
  - rewrite Hframe; [vm_compute; reflexivity | discriminate].
Defined.

(** C10.  The lookup of lines 36 to 38 is dead code: the script with those
    lines taken out returns, for every input, the text the script returns,
    and run with the files it does what the script does.  The removal of
    lines 78 to 80 reads [measurement_idx], which lines 71 to 73 look up
    again in the buffer of line 66. *)
Theorem first_cache_lookup_is_dead_code (w : world) (c : str) :
  main w = main_without_lines_36_38 w /\
  exists e,
    script c = Ok e /\
    script_without_lines_36_38 c = Ok (final_content e) /\
    measurement_idx e =
      (if str_find (content_after_imports_66 e) CACHE_COMMENT 0 =? -1
       then str_find (content_after_imports_66 e) CACHE_CONST 0
       else str_find (content_after_imports_66 e) CACHE_COMMENT 0) /\
    content_after_imports_78 e =
      (if negb (month_grid_start e =? -1) && negb (measurement_idx e =? -1)
       then slice_to (content_after_imports_66 e) (month_grid_start e) ++
            NL ++
            slice_from (content_after_imports_66 e) (measurement_idx e)
       else content_after_imports_66 e).
Proof.
  split.
  - destruct (files w !! INPUT_PATH) as [c'|] eqn:Hin.
    + destruct (script_total c') as [e Hrun].
      rewrite (main_run w c' e Hin Hrun).
      rewrite (main_without_run w c' _ Hin (script_without_eq c' e Hrun)).
      reflexivity.
    + destruct (main_no_input w Hin) as [-> ->]. reflexivity.
  - destruct (script_total c) as [e Hrun]. exists e.
    split; [exact Hrun|]. split; [by apply script_without_eq|].
    apply script_inv in Hrun
      as [Eie Eis Eui Emcs E41 Egfe E43 Ecps Ecce E49 Eipm Eip Ers Ere E59
          Eims Eime E66 Emi Emgs E78 Efc].
    split; [exact Emi | exact E78].
Qed.

(** * Further properties of the script *)

(** ** Slices and lookups, continued *)

(** [s[:i] + s[i:] == s], at every index. *)
Lemma slice_to_from (s : str) (i : Z) : slice_to s i ++ slice_from s i = s.
Proof.
  destruct (Z.le_gt_cases 0 i).
  - rewrite slice_to_nonneg, slice_from_nonneg by done. apply take_drop.
  - rewrite slice_to_neg, slice_from_neg by lia. apply take_drop.
Qed.

Lemma len_slice_to (s : str) (a : Z) :
  0 <= a <= len s -> len (slice_to s a) = a.
Proof.
  intros Ha. rewrite slice_to_nonneg by lia.
  unfold len in *. rewrite length_take. lia.
Qed.

Lemma len_slice_from (s : str) (b : Z) :
  0 <= b <= len s -> len (slice_from s b) = len s - b.
Proof.
  intros Hb. rewrite slice_from_nonneg by lia. apply len_drop. done.
Qed.

Lemma occurs_at_lookup (sub s : str) (i k : nat) (x : char) :
  occurs_at sub s i -> sub !! k = Some x -> s !! (i + k)%nat = Some x.
Proof.
  unfold str in *. intros [post H] Hk. rewrite <- lookup_drop, H.
  apply lookup_app_l_Some. exact Hk.
Qed.

Lemma no_char_spec (x : char) (s : str) (k : nat) :
  no_char x s = true -> s !! k <> Some x.
Proof.
  unfold str in *. unfold no_char. rewrite forallb_forall. intros Hall Hk.
  apply list_elem_of_lookup_2, list_elem_of_In, Hall in Hk.
  rewrite N.eqb_refl in Hk. discriminate.
Qed.

(** A needle found at or after a marker that has none of the needle's
    first character lies behind the whole marker. *)
Lemma needle_behind_marker (s M sub : str) (x : char) (i j : nat) :
  occurs_at M s i -> occurs_at (x :: sub) s j -> (i <= j)%nat ->
  no_char x M = true -> (i + length M <= j)%nat.
Proof.
  unfold str in *. intros HM Hsub Hij Hno.
  destruct (Nat.le_gt_cases (i + length M) j) as [|Hlt]; [done|exfalso].
  destruct (lookup_lt_is_Some_2 M (j - i)) as [y Hy]; [lia|].
  pose proof (occurs_at_lookup _ _ _ _ _ HM Hy) as H1.
  pose proof (occurs_at_lookup (x :: sub) s j 0 x Hsub eq_refl) as H2.
  replace (i + (j - i))%nat with j in H1 by lia.
  replace (j + 0)%nat with j in H2 by lia.
  rewrite H1 in H2. injection H2 as ->.
  by apply (no_char_spec x M (j - i)).
Qed.

(** The shape of a buffer in which a marker and, from the marker on, a
    closing token are found: a head, the marker, a body, the closing
    token, a tail.  The head ends where the marker was found and the tail
    starts behind the closing token. *)
Lemma block_shape (buf M close : str) (x : char) (i j : Z) :
  i = str_find buf M 0 -> found i = true ->
  j = str_find buf (x :: close) i -> found j = true ->
  no_char x M = true ->
  exists body,
    buf = slice_to buf i ++ M ++ body ++ (x :: close) ++
          slice_from buf (j + len (x :: close)) /\
    len (slice_to buf i) = i /\
    i + len M <= j /\
    forall k, i <= k < j -> ~ occurs_at (x :: close) buf (Z.to_nat k).
Proof.
  intros Hi Fi Hj Fj Hno.
  destruct (found_bounds _ _ _ _ Hi Fi) as (Hi0 & Hifit & _).
  destruct (found_bounds _ _ _ _ Hj Fj) as (Hj0 & Hjfit & Hjstart).
  rewrite adjust_start_nonneg_id in Hjstart by done.
  destruct (str_find_found _ _ _ _ (eq_sym Hi) Hi0) as (_ & _ & HiM & _).
  destruct (str_find_found _ _ _ _ (eq_sym Hj) Hj0) as (_ & _ & Hjc & Hjmin).
  rewrite adjust_start_nonneg_id in Hjmin by done.
  pose proof (needle_behind_marker _ _ _ _ _ _ HiM Hjc ltac:(lia) Hno) as Hbehind.
  pose proof (len_nonneg M) as HM0.
  destruct HiM as [posti HiM]. destruct Hjc as [postj Hjc].
  set (ni := Z.to_nat i) in *. set (nj := Z.to_nat j) in *.
  assert (Hposti : posti = drop (ni + length M) buf).
  { rewrite <- drop_drop, HiM, drop_app_length. reflexivity. }
  assert (Hpostj : postj = drop (nj + length (x :: close)) buf).
  { rewrite <- drop_drop, Hjc, drop_app_length. reflexivity. }
  exists (take (nj - (ni + length M)) posti).
  split; [|split; [|split]].
  - rewrite slice_to_nonneg, slice_from_nonneg by (pose proof (len_nonneg (x :: close)); lia).
    fold ni.
    replace (Z.to_nat (j + len (x :: close))) with (nj + length (x :: close))%nat
      by (unfold len, nj; lia).
    rewrite <- Hpostj, <- Hjc.
    replace (drop nj buf) with (drop (nj - (ni + length M)) posti).
    + rewrite (take_drop _ posti), <- HiM. symmetry. apply take_drop.
    + rewrite Hposti, drop_drop. f_equal. lia.
  - apply len_slice_to. lia.
  - unfold len, ni, nj in *. lia.
  - exact Hjmin.
Qed.

(** ** The pattern, continued *)

Lemma match_here_literal (l : str) (p : pattern) (s : str) (n : nat) :
  match_here (map Chr l ++ p) s = Some n ->
  exists s' n',
    s = l ++ s' /\ match_here p s' = Some n' /\ n = (length l + n')%nat.
Proof.
  revert s n. induction l as [|a l IH]; intros s n; simpl.
  - intros H. exists s, n. done.
  - destruct s as [|x s]; [discriminate|].
    destruct (N.eqb_spec x a) as [->|]; [|discriminate].
    destruct (match_here (map Chr l ++ p) s) as [k|] eqn:E; [|discriminate].
    intros [= <-]. destruct (IH s k E) as (s' & n' & -> & H & ->).
    exists s', n'. done.
Qed.

Lemma plus_not_cons (c : char) (rest : str -> option nat) (x : char) (s : str) :
  plus_not c rest (x :: s) =
  if (x =? c)%N then None
  else match plus_not c rest s with
       | Some n => Some (S n)
       | None => S <$> rest s
       end.
Proof. reflexivity. Qed.

(** [[^c]+c]: one character or more, none of them [c], then [c]. *)
Lemma plus_not_close (c : char) (s : str) (n : nat) :
  plus_not c (match_here [Chr c]) s = Some n ->
  exists body rest,
    body <> [] /\ no_char c body = true /\
    s = body ++ c :: rest /\ n = S (length body).
Proof.
  revert n. induction s as [|x s IH]; intros n; [discriminate|].
  rewrite plus_not_cons.
  destruct (N.eqb_spec x c) as [|Hne]; [discriminate|].
  destruct (plus_not c (match_here [Chr c]) s) as [k|].
  - intros [= <-]. destruct (IH k eq_refl) as (body & rest & _ & Hno & -> & ->).
    exists (x :: body), rest. split; [done|]. split; [|done].
    simpl. rewrite Hno. apply N.eqb_neq in Hne. by rewrite Hne.
  - destruct s as [|y s]; [discriminate|]. simpl.
    destruct (N.eqb_spec y c) as [->|]; [|discriminate].
    intros [= <-]. exists [x], s. split; [done|]. split; [|done].
    simpl. apply N.eqb_neq in Hne. by rewrite Hne.
Qed.

(** ** The script with its files, continued *)

Lemma STATUS_lines (out : list str) :
  (out ++ [STATUS_WRITTEN]) ++ [STATUS_REVIEW] =
  out ++ [STATUS_WRITTEN; STATUS_REVIEW].
Proof. by rewrite <- app_assoc. Qed.

(** A run that succeeds read a text and wrote what the script makes of
    it. *)
Lemma main_success_inv (w w' : world) :
  main w = (Ok tt, w') ->
  exists c e,
    files w !! INPUT_PATH = Some c /\ script c = Ok e /\
    w' = {| files := <[OUTPUT_PATH := final_content e]> (files w);
            stdout := (stdout w ++ [STATUS_WRITTEN]) ++ [STATUS_REVIEW] |}.
Proof.
  intros Hmain. destruct (files w !! INPUT_PATH) as [c|] eqn:Hin.
  - destruct (script_total c) as [e Hrun].
    rewrite (main_run w c e Hin Hrun) in Hmain. injection Hmain as <-.
    exists c, e. done.
  - destruct (main_no_input w Hin) as [H _]. rewrite H in Hmain. discriminate.
Qed.

(** * Further theorems *)

(** X1.  Without the input file the script stops at line 9 with
    [FileNotFoundError]: it writes no file and prints nothing. *)
Theorem missing_input_file_stops_the_script (w : world) :
  files w !! INPUT_PATH = None ->
  main w = (Raise FileNotFoundError, w).
Proof. intros Hin. by destruct (main_no_input w Hin) as [H _]. Qed.

Lemma missing_input_file_stops_the_script_witness :
  main world_without_input = (Raise FileNotFoundError, world_without_input).
Proof.
  apply (missing_input_file_stops_the_script world_without_input).
  vm_compute. reflexivity.
Defined.

(** X2.  The split of lines 16 and 41 loses nothing, whether the marker
    is found or not: [import_section] followed by the first
    [content_after_imports] is the input.  With the marker missing the
    split falls before the last character. *)
Theorem split_keeps_the_input (c : str) (e : env) :
  script c = Ok e ->
  import_section e ++ content_after_imports_41 e = c /\
  (~ occurs FONT_SIZE_COMMENT c ->
     len (content_after_imports_41 e) = Z.min 1 (len c)).
Proof.
  intros Hrun.
  apply script_inv in Hrun
    as [Eie Eis Eui Emcs E41 Egfe E43 Ecps Ecce E49 Eipm Eip Ers Ere E59
        Eims Eime E66 Emi Emgs E78 Efc].
  split.
  - rewrite Eis, E41. apply slice_to_from.
  - intros Hno. rewrite E41, Eie, str_find_absent by done.
    rewrite slice_from_neg by lia.
    unfold len. rewrite length_drop. lia.
Qed.

Lemma split_keeps_the_input_witness :
  exists e,
    script sample_no_markers = Ok e /\
    import_section e ++ content_after_imports_41 e = sample_no_markers /\
    content_after_imports_41 e = lit "}".
Proof.
  eexists. split; [vm_compute; reflexivity|].
  split; [|vm_compute; reflexivity].
  eapply (split_keeps_the_input sample_no_markers). vm_compute. reflexivity.
Defined.







(** X5.  What line 54 keeps is the empty string or a text of one shape:
    [interface InputProps], then one character or more that are not [}],
    then [}].  The first [}] behind the name ends the fragment, and the
    fragment is a piece of the buffer searched. *)
Theorem input_props_shape (c : str) (e : env) :
  script c = Ok e ->
  input_props e = [] \/
  exists body,
    body <> [] /\ no_char 125%N body = true /\
    input_props e = lit "interface InputProps" ++ body ++ CLOSE /\
    occurs (input_props e) (content_after_imports_49 e).
Proof.
  intros Hrun.
  apply script_inv in Hrun
    as [Eie Eis Eui Emcs E41 Egfe E43 Ecps Ecce E49 Eipm Eip Ers Ere E59
        Eims Eime E66 Emi Emgs E78 Efc].
  destruct (input_props_match e) as [m|] eqn:Hm.
  - right. symmetry in Eipm.
    apply re_search_Some in Eipm as (i & n & Hmatch & Hgroups & _).
    set (s := content_after_imports_49 e) in *.
    unfold group in Eip. rewrite Hgroups in Eip. injection Eip as Eip.
    unfold INPUT_PROPS_RE in Hmatch.
    apply match_here_literal in Hmatch as (s' & n' & Hs & Hrest & ->).
    change (match_here [NotChrPlus 125%N; Chr 125%N] s')
      with (plus_not 125%N (match_here [Chr 125%N]) s') in Hrest.
    apply plus_not_close in Hrest as (body & rest & Hne & Hno & -> & ->).
    assert (Hip : input_props e = lit "interface InputProps" ++ body ++ CLOSE).
    { rewrite <- Eip, Hs.
      rewrite take_app_ge by lia.
      replace (length (lit "interface InputProps") + S (length body) -
               length (lit "interface InputProps"))%nat
        with (length (body ++ CLOSE)) by (rewrite length_app; simpl; lia).
      change (body ++ 125%N :: rest) with (body ++ CLOSE ++ rest).
      rewrite app_assoc, take_app_length. reflexivity. }
    exists body. split; [exact Hne|]. split; [exact Hno|]. split; [exact Hip|].
    exists (take i s), rest. rewrite Hip.
    rewrite <- (take_drop i s) at 1. rewrite Hs, <- !app_assoc. reflexivity.
  - left. by injection Eip.
Qed.

Lemma input_props_shape_witness :
  exists e,
    script sample = Ok e /\
    (input_props e = [] \/
     exists body,
       body <> [] /\ no_char 125%N body = true /\
       input_props e = lit "interface InputProps" ++ body ++ CLOSE /\
       occurs (input_props e) (content_after_imports_49 e)).
Proof.
  eexists. split; [vm_compute; reflexivity|].
  apply (input_props_shape sample). vm_compute. reflexivity.
Defined.

(** X6.  The script can be run again: a second run after a successful one
    succeeds too, leaves every file as the first run left it (the input
    is as it was and the same text is written over the output), and
    prints the two status lines once more. *)
Theorem second_run_changes_no_file (w w' : world) :
  main w = (Ok tt, w') ->
  exists w'',
    main w' = (Ok tt, w'') /\
    files w'' = files w' /\
    stdout w'' = stdout w' ++ [STATUS_WRITTEN; STATUS_REVIEW].
Proof.
  intros Hmain.
  destruct (main_success_inv w w' Hmain) as (c & e & Hin & Hrun & ->).
  assert (Hin' : <[OUTPUT_PATH := final_content e]> (files w) !! INPUT_PATH = Some c).
  { rewrite lookup_insert_ne; [exact Hin|]. intros H. by apply paths_differ. }
  set (w' := {| files := <[OUTPUT_PATH := final_content e]> (files w);
               stdout := (stdout w ++ [STATUS_WRITTEN]) ++ [STATUS_REVIEW] |}).
  eexists. split; [exact (main_run w' c e Hin' Hrun)|].
  simpl. split; [apply insert_insert_eq | apply STATUS_lines].
Qed.

Lemma second_run_changes_no_file_witness :
  exists w' w'',
    main sample_world = (Ok tt, w') /\
    main w' = (Ok tt, w'') /\
    files w'' = files w' /\
    stdout w'' = stdout w' ++ [STATUS_WRITTEN; STATUS_REVIEW].
Proof.
  assert (exists w', main sample_world = (Ok tt, w')) as [w' Hw']
    by (eexists; vm_compute; reflexivity).
  destruct (second_run_changes_no_file sample_world w' Hw') as (w'' & H).
  exists w', w''. split; [exact Hw' | exact H].
Defined.

(** X7.  When [const getFontSize =] and a [};] behind it are found, lines
    41 to 43 cut the buffer behind the first [};] that follows the
    declaration: the buffer is a head, the declaration, a body with no
    [};] ending in it, the [};], and what line 43 keeps.  The head goes
    with the function: nothing ahead of the cut is kept. *)
Theorem get_font_size_removal_shape (c : str) (e : env) :
  script c = Ok e ->
  found (str_find (content_after_imports_41 e) GET_FONT_SIZE 0) = true ->
  found (str_find (content_after_imports_41 e) CLOSE_SEMI
           (str_find (content_after_imports_41 e) GET_FONT_SIZE 0)) = true ->
  exists head body,
    content_after_imports_41 e =
      head ++ GET_FONT_SIZE ++ body ++ CLOSE_SEMI ++ content_after_imports_43 e /\
    len head = str_find (content_after_imports_41 e) GET_FONT_SIZE 0 /\
    get_font_size_end e = len head + len GET_FONT_SIZE + len body + 2 /\
    forall k,
      len head <= k < len head + len GET_FONT_SIZE + len body ->
      ~ occurs_at CLOSE_SEMI (content_after_imports_41 e) (Z.to_nat k).
Proof.
  intros Hrun Fi Fj.
  apply script_inv in Hrun
    as [Eie Eis Eui Emcs E41 Egfe E43 Ecps Ecce E49 Eipm Eip Ers Ere E59
        Eims Eime E66 Emi Emgs E78 Efc].
  set (buf := content_after_imports_41 e) in *.
  destruct (block_shape buf GET_FONT_SIZE [59%N] 125%N _ _ eq_refl Fi eq_refl Fj)
    as (body & Hshape & Hhead & Hbehind & Hmin); [vm_compute; reflexivity|].
  change (125%N :: [59%N]) with CLOSE_SEMI in *.
  change (len CLOSE_SEMI) with 2 in *.
  rewrite <- Egfe, <- E43 in Hshape.
  exists (slice_to buf (str_find buf GET_FONT_SIZE 0)), body.
  split; [exact Hshape|]. split; [exact Hhead|].
  assert (Hlen : get_font_size_end e =
                 str_find buf GET_FONT_SIZE 0 + len GET_FONT_SIZE + len body + 2).
  { apply (f_equal len) in Hshape. rewrite !len_app, Hhead in Hshape.
    change (len CLOSE_SEMI) with 2 in Hshape.
    assert (0 <= get_font_size_end e <= len buf) as Hin.
    { destruct (found_bounds _ _ _ _ eq_refl Fj) as (? & ? & _).
      change (len CLOSE_SEMI) with 2 in *. lia. }
    rewrite E43, len_slice_from in Hshape by exact Hin. lia. }
  split; [rewrite Hhead; exact Hlen|].
  intros k Hk. apply Hmin. rewrite Hhead in Hk. lia.
Qed.

Lemma get_font_size_removal_shape_witness :
  exists e head body,
    script sample = Ok e /\
    content_after_imports_41 e =
      head ++ GET_FONT_SIZE ++ body ++ CLOSE_SEMI ++ content_after_imports_43 e /\
    get_font_size_end e = len head + len GET_FONT_SIZE + len body + 2.
Proof.
  assert (exists e,
    script sample = Ok e /\
    found (str_find (content_after_imports_41 e) GET_FONT_SIZE 0) = true /\
    found (str_find (content_after_imports_41 e) CLOSE_SEMI
             (str_find (content_after_imports_41 e) GET_FONT_SIZE 0)) = true)
    as (e & Hrun & F1 & F2).
  { eexists. split; [vm_compute; reflexivity|]. vm_compute. split; reflexivity. }
  destruct (get_font_size_removal_shape sample e Hrun F1 F2)
    as (head & body & H1 & _ & H3 & _).
  exists e, head, body. split; [exact Hrun|]. split; [exact H1 | exact H3].
Defined.

(** X8.  When the [isSameMonth] comment and a [};] behind it are found,
    lines 64 to 67 take out exactly the comment, the body up to the first
    [};] and that [};]: the buffer is a head, the block and a tail, and
    the result is the head followed by the tail. *)
Theorem is_same_month_removal_shape (c : str) (e : env) :
  script c = Ok e ->
  found (is_same_month_start e) = true ->
  found (str_find (content_after_imports_59 e) CLOSE_SEMI
           (is_same_month_start e)) = true ->
  exists head body tail,
    content_after_imports_59 e =
      head ++ IS_SAME_MONTH ++ body ++ CLOSE_SEMI ++ tail /\
    content_after_imports_66 e = head ++ tail /\
    len head = is_same_month_start e /\
    forall k,
      len head <= k < len head + len IS_SAME_MONTH + len body ->
      ~ occurs_at CLOSE_SEMI (content_after_imports_59 e) (Z.to_nat k).
Proof.
  intros Hrun Fi Fj.
  apply script_inv in Hrun
    as [Eie Eis Eui Emcs E41 Egfe E43 Ecps Ecce E49 Eipm Eip Ers Ere E59
        Eims Eime E66 Emi Emgs E78 Efc].
  set (buf := content_after_imports_59 e) in *.
  destruct (block_shape buf IS_SAME_MONTH [59%N] 125%N _ _ Eims Fi eq_refl Fj)
    as (body & Hshape & Hhead & Hbehind & Hmin); [vm_compute; reflexivity|].
  change (125%N :: [59%N]) with CLOSE_SEMI in *.
  change (len CLOSE_SEMI) with 2 in *.
  rewrite <- Eime in Hshape.
  exists (slice_to buf (is_same_month_start e)), body,
         (slice_from buf (is_same_month_end e)).
  split; [exact Hshape|]. split; [exact E66|]. split; [exact Hhead|].
  intros k Hk. apply Hmin. rewrite Hhead in Hk.
  apply (f_equal len) in Hshape. rewrite !len_app, Hhead in Hshape.
  change (len CLOSE_SEMI) with 2 in Hshape.
  destruct (found_bounds _ _ _ _ eq_refl Fj) as (? & ? & _).
  change (len CLOSE_SEMI) with 2 in *.
  rewrite len_slice_from in Hshape by (rewrite Eime; lia).
  rewrite Eime in Hshape. lia.
Qed.

Lemma is_same_month_removal_shape_witness :
  exists e head body tail,
    script sample = Ok e /\
    content_after_imports_59 e =
      head ++ IS_SAME_MONTH ++ body ++ CLOSE_SEMI ++ tail /\
    content_after_imports_66 e = head ++ tail.
Proof.
  assert (exists e,
    script sample = Ok e /\
    found (is_same_month_start e) = true /\
    found (str_find (content_after_imports_59 e) CLOSE_SEMI
             (is_same_month_start e)) = true)
    as (e & Hrun & F1 & F2).
  { eexists. split; [vm_compute; reflexivity|]. vm_compute. split; reflexivity. }
  destruct (is_same_month_removal_shape sample e Hrun F1 F2)
    as (head & body & tail & H1 & H2 & _).
  exists e, head, body, tail.
  split; [exact Hrun|]. split; [exact H1 | exact H2].
Defined.




